(** * yep: the action registry and the recordset pool generator

    A shallow embedding of [yep/actions/actions.go] and
    [yep/models/generate.go], with the properties of the design
    document stated over it.

    Conventions.  A Go [string] is a Rocq [string] (a sequence of
    8-bit characters); a Go [map[string]T] is a [gmap string T]; a Go
    function that may panic returns an [option], [None] standing for
    the panic. *)

From Stdlib Require Import Ascii String.
From stdpp Require Import gmap strings list fin_maps.

Set Warnings "-register-all".

(** ** Strings: the library calls the two files make *)

Module GoStrings.

(** [s[n:]] for [n <= len(s)]. *)
Fixpoint drop_string (n : nat) (s : string) : string :=
  match n, s with
  | O, _ => s
  | S n', String _ s' => drop_string n' s'
  | S _, EmptyString => EmptyString
  end.

(** [strings.Replace(s, old, new, 1)]: the leftmost occurrence of
    [old] is replaced, and [s] is returned as it is when there is
    none. *)
Fixpoint Replace1 (s old new : string) : string :=
  if String.prefix old s then new +:+ drop_string (String.length old) s
  else match s with
       | EmptyString => EmptyString
       | String c s' => String c (Replace1 s' old new)
       end.

(** [strings.Join(elems, sep)]. *)
Fixpoint Join (elems : list string) (sep : string) : string :=
  match elems with
  | [] => ""
  | [e] => e
  | e :: rest => e +:+ sep +:+ Join rest sep
  end.

(** [strings.Contains(s, sub)]. *)
Fixpoint contains (sub s : string) : bool :=
  String.prefix sub s ||
  match s with
  | EmptyString => false
  | String _ s' => contains sub s'
  end.

(** [s] ends with [suffix]. *)
Definition ends_with (suffix s : string) : Prop :=
  exists front, s = front +:+ suffix.

End GoStrings.

(** ** actions.go *)

Module Actions.

(** [ActionType] and [ActionViewType] are string types. *)
Definition ActionType := string.
Definition ActionActWindow : ActionType := "ir.actions.act_window".
Definition ActionServer : ActionType := "ir.actions.server".

(** [BaseAction], with the fields of plain type; the registry reads
    [ID] and [Name] only. *)
Record BaseAction := mkBaseAction {
  ID : string;
  Type_ : ActionType;
  Name : string;
  Model : string;
  Domain : string;
  Help : string
}.

(** [ActionRef] is [[2]string]: the id, then the name. *)
Definition ActionRef : Type := string * string.

(** [ActionRef{}], the zero value. *)
Definition emptyRef : ActionRef := ("", "").

(** What a call does to the collection's embedded [sync.RWMutex] and
    to its map, in program order. *)
Inductive event :=
| EvLock
| EvUnlock
| EvRLock
| EvRUnlock
| EvMapRead (key : string)
| EvMapWrite (key : string).

(** [Collection]: the [actions] map; the embedded mutex shows in the
    events of each method. *)
Record Collection := mkCollection {
  actions : gmap string BaseAction
}.

Definition NewActionsCollection : Collection :=
  {| actions := ∅ |}.

(** [Collection.Add]: [Lock], the deferred [Unlock] running after the
    map write. *)
Definition Add (ar : Collection) (a : BaseAction) : Collection * list event :=
  ({| actions := <[ID a := a]> (actions ar) |},
   [EvLock; EvMapWrite (ID a); EvUnlock]).

(** [Collection.GetById]: the map read, [nil] when the id is absent. *)
Definition GetById (ar : Collection) (id : string) : option BaseAction * list event :=
  (actions ar !! id, [EvMapRead id]).

(** [MakeActionRef], the package variable [Registry] passed as an
    argument (the package sets it to a collection when it is
    initialised; every function here dereferences it). *)
Definition MakeActionRef (Registry : Collection) (id : string) : ActionRef * list event :=
  let '(action, tr) := GetById Registry id in
  match action with
  | None => (emptyRef, tr)
  | Some a => ((id, Name a), tr)
  end.

(** The JSON values [json.Marshal] produces here: [null], and an
    array of strings, a JSON string being given by the UTF-8 encoding
    of its characters. *)
Inductive json :=
| JNull
| JArray (elems : list string).

(** [lo <= b <= hi]. *)
Definition byteIn (lo hi : nat) (b : ascii) : bool :=
  (lo <=? nat_of_ascii b)%nat && (nat_of_ascii b <=? hi)%nat.

(** The [more] bytes that must follow the first byte of an encoding
    are there: the first of them between [lo] and [hi], the others
    between [0x80] and [0xBF]. *)
Definition continues (lo hi : nat) (more : nat) (rest : string) : bool :=
  match more, rest with
  | 1, String b1 _ => byteIn lo hi b1
  | 2, String b1 (String b2 _) => byteIn lo hi b1 && byteIn 128 191 b2
  | 3, String b1 (String b2 (String b3 _)) =>
      byteIn lo hi b1 && byteIn 128 191 b2 && byteIn 128 191 b3
  | _, _ => false
  end.

(** [utf8.DecodeRuneInString] as the JSON encoder uses it on a string
    that starts with the byte [b0]: the number of bytes that follow
    [b0] in the encoding of the first character, and [None] where the
    decoder answers [RuneError] with the size [1] (a byte that starts
    no encoding, an encoding cut short, a byte out of its range, which
    shuts out the overlong encodings, the surrogates and what lies
    beyond [U+10FFFF]). *)
Definition runeTail (b0 : ascii) (rest : string) : option nat :=
  let n := nat_of_ascii b0 in
  if (n <? 128)%nat then Some 0
  else if byteIn 194 223 b0 then (if continues 128 191 1 rest then Some 1 else None)
  else if (n =? 224)%nat then (if continues 160 191 2 rest then Some 2 else None)
  else if (n =? 237)%nat then (if continues 128 159 2 rest then Some 2 else None)
  else if byteIn 225 239 b0 then (if continues 128 191 2 rest then Some 2 else None)
  else if (n =? 240)%nat then (if continues 144 191 3 rest then Some 3 else None)
  else if byteIn 241 243 b0 then (if continues 128 191 3 rest then Some 3 else None)
  else if (n =? 244)%nat then (if continues 128 143 3 rest then Some 3 else None)
  else None.

(** [U+FFFD], in UTF-8. *)
Definition replacementChar : string :=
  String (ascii_of_nat 239) (String (ascii_of_nat 191) (String (ascii_of_nat 189) "")).

(** The characters of the JSON string [json.Marshal] writes for a Go
    string: the encoder walks the bytes, keeps each valid encoding and
    writes [U+FFFD] for each byte that starts none; [pending] counts
    the bytes left of the encoding being kept.  (The escapes it writes
    for some characters denote those characters.) *)
Fixpoint coerce (pending : nat) (s : string) : string :=
  match s with
  | EmptyString => EmptyString
  | String b rest =>
      match pending with
      | S k => String b (coerce k rest)
      | O =>
          match runeTail b rest with
          | Some k => String b (coerce k rest)
          | None => replacementChar +:+ coerce 0 rest
          end
      end
  end.

Definition jsonString (s : string) : string := coerce 0 s.

(** [ActionRef.MarshalJSON]: [json.Marshal(nil)] is [null], and
    [json.Marshal([2]string{a, b})] the array of the two strings as
    the encoder writes them; the error is [nil] on both paths. *)
Definition MarshalJSON (ar : ActionRef) : json * option string :=
  if decide (ar.1 = "") then (JNull, None)
  else (JArray [jsonString ar.1; jsonString ar.2], None).

(** [ActionRef.Value]. *)
Definition Value (ar : ActionRef) : string * option string :=
  (ar.1, None).

(** The dynamic values [Scan] may be handed as [interface{}]: [nil],
    a [string], a [[]byte], or a value of another dynamic type, of
    which [%T] prints the name. *)
Inductive value :=
| VNil
| VString (s : string)
| VBytes (b : list Byte.byte)
| VOther (dynType : string).

(** What [%T] prints. *)
Definition typeName (v : value) : string :=
  match v with
  | VNil => "<nil>"
  | VString _ => "string"
  | VBytes _ => "[]uint8"
  | VOther t => t
  end.

(** [ActionRef.Scan]: the receiver after the call, and the error. *)
Definition Scan (Registry : Collection) (ar : ActionRef) (src : value)
  : ActionRef * option string * list event :=
  match src with
  | VString s =>
      let '(r, tr) := MakeActionRef Registry s in (r, None, tr)
  | VBytes s =>
      let '(r, tr) := MakeActionRef Registry (string_of_list_byte s) in (r, None, tr)
  | _ => (ar, Some ("Invalid type for ActionRef: " +:+ typeName src), [])
  end.

(** The lock discipline of a single caller over its events: a map
    write needs the write lock, a map read the read or the write
    lock. *)
Inductive held := Unlocked | ReadLocked | WriteLocked.

Fixpoint guarded (h : held) (tr : list event) : bool :=
  match tr with
  | [] => true
  | EvLock :: tr' => guarded WriteLocked tr'
  | EvRLock :: tr' => guarded ReadLocked tr'
  | EvUnlock :: tr' | EvRUnlock :: tr' => guarded Unlocked tr'
  | EvMapRead _ :: tr' =>
      match h with Unlocked => false | _ => guarded h tr' end
  | EvMapWrite _ :: tr' =>
      match h with WriteLocked => guarded h tr' | _ => false end
  end.

(** The registry after the actions of [l] have been added to a new
    collection, one after the other. *)
Definition registered (l : list BaseAction) : Collection :=
  fold_left (fun ar a => (Add ar a).1) l NewActionsCollection.

Section Loading.

(** [etree.Element], [xmlutils.ElementToXML] and [xml.Unmarshal] into
    a [BaseAction], declared outside this file: decoding gives the
    action, or an error. *)
Variable Element : Type.
Variable ElementToXML : Element -> string.
Variable Unmarshal : string -> BaseAction + string.

(** [LoadFromEtree], the package variable [Registry] passed as an
    argument; [logging.LogAndPanic] panics. *)
Definition LoadFromEtree (Registry : Collection) (element : Element)
  : option (Collection * list event) :=
  let xmlBytes := ElementToXML element in
  match Unmarshal xmlBytes with
  | inr err => None
  | inl action => Some (Add Registry action)
  end.

End Loading.

End Actions.

(** ** generate.go *)

Module Models.
Import GoStrings.

(** [reflect.Type], as far as the generator inspects it: a type that
    is neither a pointer nor a slice is given by its package path
    (empty for predeclared and unnamed types) and its printed name.
    The generator asks [Elem] of pointers and of the slice of a
    variadic parameter only. *)
Inductive rtype :=
| TBase (pkgPath : string) (printed : string)
| TPtr (elem : rtype)
| TSlice (elem : rtype).

Global Instance rtype_eq_dec : EqDecision rtype.
Proof. solve_decision. Defined.

(** [typ.String()]. *)
Fixpoint TypeString (typ : rtype) : string :=
  match typ with
  | TBase _ s => s
  | TPtr e => "*" +:+ TypeString e
  | TSlice e => "[]" +:+ TypeString e
  end.

(** [typ.PkgPath()]: empty for pointer and slice types. *)
Definition PkgPath (typ : rtype) : string :=
  match typ with
  | TBase p _ => p
  | _ => ""
  end.

(** [typ.Elem()], which panics on a type without elements. *)
Definition Elem (typ : rtype) : option rtype :=
  match typ with
  | TBase _ _ => None
  | TPtr e | TSlice e => Some e
  end.

(** [for typ.Kind() == reflect.Ptr { typ = typ.Elem() }]. *)
Fixpoint stripPtr (typ : rtype) : rtype :=
  match typ with
  | TPtr e => stripPtr e
  | _ => typ
  end.

(** A [reflect.Type] of kind [Func]: [In(0)] is the receiver. *)
Record funcType := mkFuncType {
  ins : list rtype;
  outs : list rtype;
  IsVariadic : bool
}.

Definition NumIn (t : funcType) : nat := length (ins t).

(** Modelled from the spec: the field descriptor [fieldInfo], declared
    outside these files; [generate.go] reads its relation flag
    ([isRelationField()]), its target model name and the reflected
    type of its struct field. *)
Record fieldInfo := mkFieldInfo {
  isRelationField : bool;
  relatedModelName : string;
  structFieldType : rtype
}.

(** Modelled from the spec: the method descriptor [methodInfo],
    declared outside these files; [generate.go] reads its
    documentation and its reflected signature. *)
Record methodInfo := mkMethodInfo {
  doc : string;
  methodType : funcType
}.

(** Modelled from the spec: the model descriptor [modelInfo], declared
    outside these files; [generate.go] reads its name, its two member
    maps and the list of the mixins applied to it. *)
Inductive modelInfo := mkModelInfo {
  name : string;
  fields : gmap string fieldInfo;
  methods : gmap string methodInfo;
  mixins : list modelInfo
}.

(** Modelled from the spec: the global [modelRegistry], declared
    outside these files. *)
Record modelCollection := mkModelCollection {
  registryByName : gmap string modelInfo;
  commonMixins : list modelInfo
}.

(** [generate.MethodRef] is the pair (model, method); a
    [generate.MethodASTData] carries the parameter names and the doc
    string recovered from the sources. *)
Definition MethodRef : Type := string * string.

Record MethodASTData := mkMethodASTData {
  Params : list string;
  Doc : string
}.

(** The zero value a map read yields for an absent key. *)
Definition noASTData : MethodASTData := {| Params := []; Doc := "" |}.

Record fieldData := mkFieldData {
  FName : string;
  FType : string;
  FTypeIsRS : bool
}.

Record methodData := mkMethodData {
  MName : string;
  MDoc : string;
  MParams : string;
  MParamsWithType : string;
  MReturns : string;
  MReturnsIsRS : bool
}.

Record modelData := mkModelData {
  Name : string;
  Deps : list string;
  Fields : list fieldData;
  Methods : list methodData
}.

(** [specificMethods]. *)
Definition specificMethods : gmap string bool :=
  <["Create" := true]> (<["First" := true]> (<["All" := true]> ∅)).

(** A read [m[k]] of a [map[string]bool]. *)
Definition readBool (m : gmap string bool) (k : string) : bool :=
  default false (m !! k).

(** A loop body run over a list, stopping at the first panic. *)
Fixpoint forEach {A S : Type} (body : S -> A -> option S) (l : list A) (s : S) : option S :=
  match l with
  | [] => Some s
  | x :: l' => s' ← body s x; forEach body l' s'
  end.

Section Generator.

(** The constants [generate.PoolPath] and [generate.ModelsPath], the
    import paths of the generated package and of package [models]. *)
Variable PoolPath ModelsPath : string.

(** The order in which a [range] statement visits a map: any order,
    each key once. *)
Variable range : forall V : Type, gmap string V -> list (string * V).
Hypothesis range_perm : forall (V : Type) (m : gmap string V),
  range V m ≡ₚ map_to_list m.

(** [strings.ToLower] and [path.Join]. *)
Variable ToLower : string -> string.
Variable pathJoin : string -> string -> string.

(** The bootstrap steps [GeneratePool] runs first, declared outside
    these files; each may stop the run with a fatal error. *)
Variable createModelLinks inflateMixIns inflateEmbeddings generateMethodsDoc :
  modelCollection -> option modelCollection.

(** [reflect.TypeOf(RecordCollection{})], a type of package [models]. *)
Definition RecordCollectionType : rtype :=
  TBase ModelsPath "models.RecordCollection".

Definition sanitizedFieldType (mi : modelInfo) (typ : rtype) : string * bool :=
  let typStr := TypeString typ in
  let '(isRC, typStr) :=
    if decide (typ = RecordCollectionType) then (true, name mi +:+ "Set")
    else (false, typStr) in
  (Replace1 typStr "pool." "", isRC).

Definition addDependency (data : modelData) (typ : rtype) (deps : gmap string bool)
  : modelData * gmap string bool :=
  let fDep := PkgPath (stripPtr typ) in
  let data' :=
    if negb (bool_decide (fDep = "")) && negb (readBool deps fDep)
    then {| Name := Name data; Deps := Deps data ++ [fDep];
            Fields := Fields data; Methods := Methods data |}
    else data in
  (data', <[fDep := true]> deps).

(** The body of the loop of [addFieldsToModelData]. *)
Definition addField (mi : modelInfo) (st : modelData * gmap string bool)
    (entry : string * fieldInfo) : modelData * gmap string bool :=
  let '(mData, deps) := st in
  let '(fieldName, fi) := entry in
  let '(typStr, typIsRS) :=
    if isRelationField fi then (relatedModelName fi +:+ "Set", true)
    else ((sanitizedFieldType mi (structFieldType fi)).1, false) in
  let mData' :=
    {| Name := Name mData; Deps := Deps mData;
       Fields := Fields mData ++
         [{| FName := fieldName; FType := typStr; FTypeIsRS := typIsRS |}];
       Methods := Methods mData |} in
  addDependency mData' (structFieldType fi) deps.

Definition addFieldsToModelData (mData : modelData) (mi : modelInfo)
    (deps : gmap string bool) : modelData * gmap string bool :=
  fold_left (addField mi) (range _ (fields mi)) (mData, deps).

(** The mixin loop of [addMethodsToModelData], [i] running from
    [k - 1] down to [0]; the result is the entry found, if any. *)
Fixpoint mixInLoop (astData : gmap MethodRef MethodASTData)
    (allMixIns : list modelInfo) (methodName : string) (k : nat)
  : option MethodASTData :=
  match k with
  | O => None
  | S i =>
      match allMixIns !! i with
      | None => None
      | Some mixIn =>
          match astData !! (name mixIn, methodName) with
          | Some dParams => Some dParams
          | None => mixInLoop astData allMixIns methodName i
          end
      end
  end.

(** Lines 157 to 176 of [addMethodsToModelData]: the value of
    [dParams] the signature loop reads. *)
Definition lookupASTData (reg : modelCollection) (mi : modelInfo)
    (astData : gmap MethodRef MethodASTData) (methodName : string) : MethodASTData :=
  match astData !! (name mi, methodName) with
  | Some dParams => dParams
  | None =>
      let allMixIns := commonMixins reg ++ mixins mi in
      match mixInLoop astData allMixIns methodName (length allMixIns) with
      | Some dParams => dParams
      | None => default noASTData (astData !! ("", methodName))
      end
  end.

(** The state of the signature loop: [params], [paramsType], and the
    model data and imported paths. *)
Definition sigState : Type :=
  list string * list string * modelData * gmap string bool.

(** The body of the signature loop, for the parameter of index [i]. *)
Definition addParam (mi : modelInfo) (methType : funcType) (dParams : MethodASTData)
    (st : sigState) (i : nat) : option sigState :=
  let '(params, paramsType, mData, deps) := st in
  inTyp ← ins methType !! (i + 1)%nat;
  '(pType, isRC) ←
    (if IsVariadic methType && bool_decide (i + 2 = NumIn methType)%nat
     then e ← Elem inTyp;
          let '(varArgType, isRC) := sanitizedFieldType mi e in
          Some ("..." +:+ varArgType, isRC)
     else Some (sanitizedFieldType mi inTyp));
  pName ← Params dParams !! i;
  let paramsType' := <[i := pName +:+ " " +:+ pType]> paramsType in
  let params' :=
    <[i := if isRC : bool then pName +:+ ".RecordCollection" else pName]> params in
  let '(mData', deps') := addDependency mData inTyp deps in
  Some (params', paramsType', mData', deps').

(** The body of the loop of [addMethodsToModelData]. *)
Definition addMethod (reg : modelCollection) (mi : modelInfo)
    (astData : gmap MethodRef MethodASTData)
    (st : modelData * gmap string bool) (entry : string * methodInfo)
  : option (modelData * gmap string bool) :=
  let '(mData, deps) := st in
  let '(methodName, methInfo) := entry in
  if readBool specificMethods methodName then Some (mData, deps)
  else
    let dParams := lookupASTData reg mi astData methodName in
    let methType := methodType methInfo in
    match NumIn methType with
    | O => None
    | S n =>
        '(params, paramsType, mData1, deps1) ←
          forEach (addParam mi methType dParams) (seq 0 n)
                  (replicate n "", replicate n "", mData, deps);
        let '(returns, returnsIsRS, mData2, deps2) :=
          match outs methType with
          | [] => ("", false, mData1, deps1)
          | out0 :: _ =>
              let '(r, isRS) := sanitizedFieldType mi out0 in
              let '(d, dp) := addDependency mData1 out0 deps1 in
              (r, isRS, d, dp)
          end in
        let methData :=
          {| MName := methodName; MDoc := doc methInfo;
             MParams := Join params ", ";
             MParamsWithType := Join paramsType ", ";
             MReturns := returns; MReturnsIsRS := returnsIsRS |} in
        Some ({| Name := Name mData2; Deps := Deps mData2;
                 Fields := Fields mData2;
                 Methods := Methods mData2 ++ [methData] |}, deps2)
    end.

Definition addMethodsToModelData (reg : modelCollection) (mData : modelData)
    (mi : modelInfo) (astData : gmap MethodRef MethodASTData)
    (deps : gmap string bool) : option (modelData * gmap string bool) :=
  forEach (addMethod reg mi astData) (range _ (methods mi)) (mData, deps).

(** [generateModelPoolFile]: the file created and the data rendered
    into it by the template, or the panic. *)
Definition generateModelPoolFile (reg : modelCollection) (mi : modelInfo)
    (fileName : string) (astData : gmap MethodRef MethodASTData)
  : option (string * modelData) :=
  let deps : gmap string bool := <[PoolPath := true]> ∅ in
  let mData := {| Name := name mi; Deps := [ModelsPath]; Fields := []; Methods := [] |} in
  let '(mData1, deps1) := addFieldsToModelData mData mi deps in
  '(mData2, _) ← addMethodsToModelData reg mData1 mi astData deps1;
  Some (fileName, mData2).

(** How a run of [GeneratePool] ends, with the files written so far. *)
Inductive outcome :=
| Completed (written : list (string * modelData))
| Panicked (written : list (string * modelData)).

(** The loop of [GeneratePool] over the models still to visit. *)
Fixpoint poolLoop (reg : modelCollection) (dir : string)
    (astData : gmap MethodRef MethodASTData)
    (todo : list (string * modelInfo)) (written : list (string * modelData)) : outcome :=
  match todo with
  | [] => Completed written
  | (modelName, mi) :: rest =>
      let fileName := ToLower modelName +:+ ".go" in
      match generateModelPoolFile reg mi (pathJoin dir fileName) astData with
      | Some w => poolLoop reg dir astData rest (written ++ [w])
      | None => Panicked written
      end
  end.

(** The first four calls of [GeneratePool]. *)
Definition simulateBootstrap (reg0 : modelCollection) : option modelCollection :=
  reg1 ← createModelLinks reg0;
  reg2 ← inflateMixIns reg1;
  reg3 ← inflateEmbeddings reg2;
  generateMethodsDoc reg3.

Definition GeneratePool (reg0 : modelCollection) (dir : string)
    (astData : gmap MethodRef MethodASTData) : outcome :=
  match simulateBootstrap reg0 with
  | None => Panicked []
  | Some reg => poolLoop reg dir astData (range _ (registryByName reg)) []
  end.

(** *** The vocabulary of the properties *)

(** The first entry found for [methodName] under the model names
    [models], tried from left to right. *)
Fixpoint firstMatch (astData : gmap MethodRef MethodASTData) (methodName : string)
    (models : list string) : option MethodASTData :=
  match models with
  | [] => None
  | m :: rest =>
      match astData !! (m, methodName) with
      | Some d => Some d
      | None => firstMatch astData methodName rest
      end
  end.

(** The resolution order of the design document: the model itself,
    its mixins from the last applied to the first (the common mixins
    are applied before the model's own), and the empty model name. *)
Definition lookupOrder (reg : modelCollection) (mi : modelInfo) : list string :=
  name mi :: rev (map name (commonMixins reg ++ mixins mi)) ++ [""].

(** [l] without the repetitions of its elements, each at the place of
    its first occurrence. *)
Fixpoint firstOccurrences (l : list string) : list string :=
  match l with
  | [] => []
  | p :: rest => p :: filter (fun q => q <> p) (firstOccurrences rest)
  end.

(** The package path a type stands for in the import list. *)
Definition depPath (typ : rtype) : string := PkgPath (stripPtr typ).

(** A path the import list takes when it comes: not empty, and not
    marked in the map of the paths imported so far. *)
Definition unlisted (deps : gmap string bool) (p : string) : Prop :=
  p <> "" /\ readBool deps p = false.

(** The state of the import list after the types [ts] have been
    resolved, from the list [L0] and the marks [deps0]: the list has
    grown by the unlisted paths of [ts], each at its first occurrence,
    and the paths of [ts] are marked. *)
Definition tracked (L0 : list string) (deps0 : gmap string bool) (ts : list rtype)
    (L : list string) (deps : gmap string bool) : Prop :=
  L = L0 ++ firstOccurrences (filter (unlisted deps0) (map depPath ts)) /\
  forall p, readBool deps p =
            readBool deps0 p || bool_decide (p ∈ map depPath ts).

(** The types of a method the generator resolves: the parameters
    after the receiver and the first result; none for a method with a
    template of its own. *)
Definition methodTypes (entry : string * methodInfo) : list rtype :=
  if readBool specificMethods entry.1 then []
  else tail (ins (methodType entry.2)) ++ take 1 (outs (methodType entry.2)).

(** The types of a model in the order the generator resolves them. *)
Definition typesSeen (mi : modelInfo) : list rtype :=
  map (fun entry => structFieldType entry.2) (range _ (fields mi)) ++
  flat_map methodTypes (range _ (methods mi)).

(** [fd] is what the generator emits for the field [entry]. *)
Definition emitsField (mi : modelInfo) (entry : string * fieldInfo) (fd : fieldData) : Prop :=
  FName fd = fst entry /\
  (FType fd, FTypeIsRS fd) =
    (if isRelationField (snd entry)
     then (relatedModelName (snd entry) +:+ "Set", true)
     else ((sanitizedFieldType mi (structFieldType (snd entry))).1, false)).

(** [md] is what the generator emits for the name, the documentation
    and the result of the method [entry]. *)
Definition emitsMethod (mi : modelInfo) (entry : string * methodInfo) (md : methodData) : Prop :=
  MName md = fst entry /\
  MDoc md = doc (snd entry) /\
  (MReturns md, MReturnsIsRS md) =
    match outs (methodType (snd entry)) with
    | [] => ("", false)
    | out0 :: _ => sanitizedFieldType mi out0
    end.

(** The text of the type of a parameter in the signature of a
    wrapper, and whether the parameter is a recordset; for the
    variadic parameter, [...] before the type of its elements. *)
Definition paramTypeText (mi : modelInfo) (variadic : bool) (t : rtype)
  : option (string * bool) :=
  if variadic
  then e ← Elem t;
       Some ("..." +:+ (sanitizedFieldType mi e).1, (sanitizedFieldType mi e).2)
  else Some (sanitizedFieldType mi t).

(** A parameter as the wrapper passes it on, and as the wrapper
    declares it. *)
Definition callArg (pName : string) (pt : string * bool) : string :=
  if pt.2 then pName +:+ ".RecordCollection" else pName.

Definition declArg (pName : string) (pt : string * bool) : string :=
  pName +:+ " " +:+ pt.1.

(** [md] is what the generator emits for the parameters of the method
    [entry]: the names recovered for the method are paired, from the
    first, with its parameters after the receiver. *)
Definition emitsParams (reg : modelCollection) (mi : modelInfo)
    (astData : gmap MethodRef MethodASTData)
    (entry : string * methodInfo) (md : methodData) : Prop :=
  let methType := methodType (snd entry) in
  let ptypes := tail (ins methType) in
  let names := Params (lookupASTData reg mi astData (fst entry)) in
  exists pts : list (string * bool),
    length pts = length ptypes /\
    length ptypes <= length names /\
    (forall i t, ptypes !! i = Some t ->
       pts !! i =
       paramTypeText mi (IsVariadic methType && bool_decide (S i = length ptypes)) t) /\
    MParams md = Join (zip_with callArg names pts) ", " /\
    MParamsWithType md = Join (zip_with declArg names pts) ", ".

(** What the generator needs of a method to emit its wrapper: a
    receiver, a name for each parameter after it, and elements in the
    type of the variadic parameter. *)
Definition generatable (reg : modelCollection) (mi : modelInfo)
    (astData : gmap MethodRef MethodASTData) (entry : string * methodInfo) : Prop :=
  let methType := methodType (snd entry) in
  0 < NumIn methType /\
  NumIn methType - 1 <= length (Params (lookupASTData reg mi astData (fst entry))) /\
  (IsVariadic methType = true -> 2 <= NumIn methType ->
     exists t e, last (ins methType) = Some t /\ Elem t = Some e).

(** An import list and the marks of the imported paths that go
    together: no path is listed twice, and the paths listed are the
    paths marked, the empty path apart. *)
Definition consistent (L : list string) (deps : gmap string bool) : Prop :=
  NoDup L /\
  forall p, p <> "" -> (p ∈ L <-> readBool deps p = true).

End Generator.

End Models.

(** ** Sample declarations *)

Module Examples.
Import GoStrings Models.

Definition PoolPath : string := "github.com/npiganeau/yep/pool".
Definition ModelsPath : string := "github.com/npiganeau/yep/yep/models".

(** One order a [range] statement may take: the order of the keys'
    encodings. *)
Definition rangeInOrder (V : Type) (m : gmap string V) : list (string * V) :=
  map_to_list m.

(** [strings.ToLower] on ASCII letters. *)
Definition lowerChar (c : ascii) : ascii :=
  let n := nat_of_ascii c in
  if (65 <=? n)%nat && (n <=? 90)%nat then ascii_of_nat (n + 32) else c.

Fixpoint lowerASCII (s : string) : string :=
  match s with
  | EmptyString => EmptyString
  | String c s' => String (lowerChar c) (lowerASCII s')
  end.

(** [path.Join] of a clean directory and a file name. *)
Definition joinPlain (dir file : string) : string := dir +:+ "/" +:+ file.

(** A bootstrap step over a registry that is composed already. *)
Definition composed (reg : modelCollection) : option modelCollection := Some reg.

Definition tString : rtype := TBase "" "string".
Definition tTime : rtype := TBase "time" "time.Time".
Definition tRecordCollection : rtype := RecordCollectionType ModelsPath.
Definition tProfileSet : rtype := TBase PoolPath "pool.ProfileSet".

(** [func (rs RecordCollection, name string) RecordCollection], a
    method a mixin hands to every model. *)
Definition byName : methodInfo :=
  {| doc := "// ByName returns the records of the given name";
     methodType := {| ins := [tRecordCollection; tString];
                      outs := [tRecordCollection];
                      IsVariadic := false |} |}.

(** [func (rs RecordCollection, who string, when *time.Time)]. *)
Definition greet : methodInfo :=
  {| doc := "// Greet greets";
     methodType := {| ins := [tRecordCollection; tString; TPtr tTime];
                      outs := [];
                      IsVariadic := false |} |}.

Definition create : methodInfo :=
  {| doc := "";
     methodType := {| ins := [tRecordCollection; tString];
                      outs := [tRecordCollection];
                      IsVariadic := false |} |}.

Definition user : modelInfo :=
  {| name := "User";
     fields :=
       <["UserName" := {| isRelationField := false; relatedModelName := "";
                          structFieldType := tString |}]>
       (<["Profile" := {| isRelationField := true; relatedModelName := "Profile";
                          structFieldType := tProfileSet |}]> ∅);
     methods :=
       <["ByName" := byName]> (<["Greet" := greet]> (<["Create" := create]> ∅));
     mixins := [] |}.

Definition post : modelInfo :=
  {| name := "Post";
     fields :=
       <["Title" := {| isRelationField := false; relatedModelName := "";
                       structFieldType := tString |}]> ∅;
     methods := <["ByName" := byName]> ∅;
     mixins := [] |}.

Definition registry : modelCollection :=
  {| registryByName := <["User" := user]> (<["Post" := post]> ∅);
     commonMixins := [] |}.

(** The names recovered from the sources: one name more than
    [Greet] has parameters. *)
Definition astData : gmap MethodRef MethodASTData :=
  <[("User", "Greet") := {| Params := ["who"; "when"; "where"]; Doc := "" |}]>
  (<[("", "ByName") := {| Params := ["name"]; Doc := "" |}]> ∅).

(** The names recovered from other sources: one name less than
    [Greet] has parameters. *)
Definition astDataShort : gmap MethodRef MethodASTData :=
  <[("User", "Greet") := {| Params := ["who"]; Doc := "" |}]>
  (<[("", "ByName") := {| Params := ["name"]; Doc := "" |}]> ∅).

(** What the template receives for [user] and for [post].  The path
    of package [models] stands twice in both lists: the list starts
    with it, and the result of [ByName], a [RecordCollection], adds
    it once more. *)
Definition userData : modelData :=
  {| Name := "User";
     Deps := [ModelsPath; "time"; ModelsPath];
     Fields :=
       [{| FName := "UserName"; FType := "string"; FTypeIsRS := false |};
        {| FName := "Profile"; FType := "ProfileSet"; FTypeIsRS := true |}];
     Methods :=
       [{| MName := "Greet"; MDoc := "// Greet greets";
           MParams := "who, when";
           MParamsWithType := "who string, when *time.Time";
           MReturns := ""; MReturnsIsRS := false |};
        {| MName := "ByName";
           MDoc := "// ByName returns the records of the given name";
           MParams := "name"; MParamsWithType := "name string";
           MReturns := "UserSet"; MReturnsIsRS := true |}] |}.

Definition postData : modelData :=
  {| Name := "Post";
     Deps := [ModelsPath; ModelsPath];
     Fields := [{| FName := "Title"; FType := "string"; FTypeIsRS := false |}];
     Methods :=
       [{| MName := "ByName";
           MDoc := "// ByName returns the records of the given name";
           MParams := "name"; MParamsWithType := "name string";
           MReturns := "PostSet"; MReturnsIsRS := true |}] |}.

(** Another order a [range] statement may take: the reverse one. *)
Definition rangeReversed (V : Type) (m : gmap string V) : list (string * V) :=
  rev (map_to_list m).

(** The names recovered from sources that give [Greet] the names of
    its two parameters, and a doc string. *)
Definition astDataExact : gmap MethodRef MethodASTData :=
  <[("User", "Greet") := {| Params := ["who"; "when"]; Doc := "// Greet" |}]>
  (<[("", "ByName") := {| Params := ["name"]; Doc := "" |}]> ∅).

(** [func (rs RecordCollection, kind string, others ...RecordCollection)
    RecordCollection]. *)
Definition link : methodInfo :=
  {| doc := "// Link links";
     methodType := {| ins := [tRecordCollection; tString; TSlice tRecordCollection];
                      outs := [tRecordCollection];
                      IsVariadic := true |} |}.

Definition tag : modelInfo :=
  {| name := "Tag";
     fields :=
       <["Name" := {| isRelationField := false; relatedModelName := "";
                      structFieldType := tString |}]> ∅;
     methods := <["Link" := link]> ∅;
     mixins := [] |}.

Definition astDataTag : gmap MethodRef MethodASTData :=
  <[("Tag", "Link") := {| Params := ["kind"; "others"]; Doc := "" |}]> ∅.

(** What the template receives for [tag]. *)
Definition tagData : modelData :=
  {| Name := "Tag";
     Deps := [ModelsPath; ModelsPath];
     Fields := [{| FName := "Name"; FType := "string"; FTypeIsRS := false |}];
     Methods :=
       [{| MName := "Link"; MDoc := "// Link links";
           MParams := "kind, others.RecordCollection";
           MParamsWithType := "kind string, others ...TagSet";
           MReturns := "TagSet"; MReturnsIsRS := true |}] |}.

(** A model with a field of type [[]time.Time]. *)
Definition journal : modelInfo :=
  {| name := "Journal";
     fields :=
       <["Stamps" := {| isRelationField := false; relatedModelName := "";
                        structFieldType := TSlice tTime |}]> ∅;
     methods := ∅;
     mixins := [] |}.

(** What the template receives for [journal]. *)
Definition journalData : modelData :=
  {| Name := "Journal";
     Deps := [ModelsPath];
     Fields := [{| FName := "Stamps"; FType := "[]time.Time"; FTypeIsRS := false |}];
     Methods := [] |}.

(** A model with two fields of the reflected type [RecordCollection]:
    [Author], a relation to [User], and [Thread], no relation
    field. *)
Definition comment : modelInfo :=
  {| name := "Comment";
     fields :=
       <["Author" := {| isRelationField := true; relatedModelName := "User";
                        structFieldType := tRecordCollection |}]>
       (<["Thread" := {| isRelationField := false; relatedModelName := "";
                         structFieldType := tRecordCollection |}]> ∅);
     methods := <["ByName" := byName]> ∅;
     mixins := [] |}.

(** What the template receives for [comment]. *)
Definition commentData : modelData :=
  {| Name := "Comment";
     Deps := [ModelsPath; ModelsPath];
     Fields :=
       [{| FName := "Author"; FType := "UserSet"; FTypeIsRS := true |};
        {| FName := "Thread"; FType := "CommentSet"; FTypeIsRS := false |}];
     Methods :=
       [{| MName := "ByName";
           MDoc := "// ByName returns the records of the given name";
           MParams := "name"; MParamsWithType := "name string";
           MReturns := "CommentSet"; MReturnsIsRS := true |}] |}.

End Examples.

(** * Properties *)

(** ** Strings *)

Module GoStringsFacts.
Import GoStrings.

Lemma append_cons (c : ascii) (s t : string) :
  String c s +:+ t = String c (s +:+ t).
Proof. reflexivity. Qed.

Lemma append_empty_l (s : string) : "" +:+ s = s.
Proof. reflexivity. Qed.

Lemma length_append (s t : string) :
  String.length (s +:+ t) = (String.length s + String.length t)%nat.
Proof. induction s as [|c s IH]; [done|]. rewrite append_cons. simpl. by rewrite IH. Qed.

Lemma substring_append (front suffix : string) :
  substring (String.length front) (String.length suffix) (front +:+ suffix) = suffix.
Proof.
  induction front as [|c front IH]; simpl.
  - rewrite append_empty_l. induction suffix as [|c s IH]; simpl; [done|].
    destruct s; simpl in *; by rewrite ?IH.
  - exact IH.
Qed.

(** A string that ends with [suffix] shows it at its end. *)
Lemma ends_with_substring (suffix s : string) :
  ends_with suffix s ->
  substring (String.length s - String.length suffix) (String.length suffix) s = suffix.
Proof.
  intros [front ->]. rewrite length_append.
  replace (String.length front + String.length suffix - String.length suffix)%nat
    with (String.length front) by lia.
  apply substring_append.
Qed.

Lemma ends_with_cons (suffix s : string) (c : ascii) :
  ends_with suffix s -> ends_with suffix (String c s).
Proof. intros [front ->]. by exists (String c front). Qed.

(** Where [pool.] starts a string that ends with [Set], what follows
    it still ends with [Set]: no character of [Set] is a dot. *)
Lemma drop_pool_ends_with_Set (n : string) :
  String.prefix "pool." (n +:+ "Set") = true ->
  ends_with "Set" (drop_string 5 (n +:+ "Set")).
Proof.
  intros Hp. apply prefix_correct in Hp.
  destruct n as [|c1 [|c2 [|c3 [|c4 [|c5 n]]]]]; simpl in Hp; try congruence.
  by exists n.
Qed.

(** Removing the first [pool.] from a name followed by [Set] leaves a
    string that ends with [Set]. *)
Lemma Replace1_pool_ends_with_Set (n : string) :
  ends_with "Set" (Replace1 (n +:+ "Set") "pool." "").
Proof.
  induction n as [|c n IH].
  - by exists "".
  - rewrite append_cons.
    change (Replace1 (String c (n +:+ "Set")) "pool." "")
      with (if String.prefix "pool." (String c (n +:+ "Set"))
            then "" +:+ drop_string 5 (String c (n +:+ "Set"))
            else String c (Replace1 (n +:+ "Set") "pool." "")).
    destruct (String.prefix "pool." (String c (n +:+ "Set"))) eqn:Hp.
    + rewrite append_empty_l. rewrite <- append_cons in *.
      by apply drop_pool_ends_with_Set.
    + by apply ends_with_cons.
Qed.

(** A string without [old] is left as it is. *)
Lemma Replace1_absent (s old new : string) :
  contains old s = false -> Replace1 s old new = s.
Proof.
  induction s as [|c s IH]; simpl; intros H.
  - destruct old; [discriminate|done].
  - apply orb_false_iff in H as [H1 H2]. rewrite H1. by rewrite IH.
Qed.

Lemma ends_with_Set_not_raw (s : string) :
  ends_with "Set" s -> s <> "models.RecordCollection".
Proof.
  intros H ->. apply ends_with_substring in H. discriminate.
Qed.

Lemma prefix_pool_before_Set (m : string) :
  String.prefix "pool." (m +:+ "Set") = true -> String.prefix "pool." m = true.
Proof.
  rewrite !prefix_correct.
  destruct m as [|c1 [|c2 [|c3 [|c4 [|c5 m]]]]]; simpl; try congruence.
  intros [= -> -> -> -> -> _]. by destruct m.
Qed.

(** A name without [pool.] is still without it once [Set] follows. *)
Lemma contains_pool_before_Set (n : string) :
  contains "pool." n = false -> contains "pool." (n +:+ "Set") = false.
Proof.
  induction n as [|c n IH]; [done|].
  rewrite append_cons. cbn [contains]. rewrite !orb_false_iff.
  intros [Hprefix Hrest]. split; [|by apply IH].
  destruct (String.prefix "pool." (String c (n +:+ "Set"))) eqn:Hp; [|done].
  rewrite <- append_cons in Hp. apply prefix_pool_before_Set in Hp. congruence.
Qed.

(** [pool.] stands in a string built around it. *)
Lemma contains_pool_append (pre post : string) :
  contains "pool." (pre +:+ "pool." +:+ post) = true.
Proof.
  induction pre as [|c pre IH].
  - rewrite append_empty_l.
    change ("pool." +:+ post) with (String "p" ("ool." +:+ post)).
    assert (String.prefix "pool." (String "p" ("ool." +:+ post)) = true) as Hp
      by (apply prefix_correct; by destruct post).
    cbn [contains]. by rewrite Hp.
  - rewrite append_cons. cbn [contains]. rewrite IH. apply orb_true_r.
Qed.

Lemma prefix_pool_straddle (c : ascii) (pre post : string) :
  String.prefix "pool." (String c pre +:+ "pool." +:+ post) = true ->
  String.prefix "pool." (String c pre) = true.
Proof.
  rewrite !prefix_correct.
  destruct pre as [|c2 [|c3 [|c4 [|c5 pre]]]]; simpl; try congruence.
  intros [= -> -> -> -> -> _]. by destruct pre.
Qed.

Lemma Replace1_first_pool (pre post : string) :
  contains "pool." pre = false ->
  Replace1 (pre +:+ "pool." +:+ post) "pool." "" = pre +:+ post.
Proof.
  induction pre as [|c pre IH].
  { intros _. rewrite !append_empty_l.
    assert (String.prefix "pool." ("pool." +:+ post) = true) as Hp
      by (apply prefix_correct; by destruct post).
    change (Replace1 ("pool." +:+ post) "pool." "")
      with (if String.prefix "pool." ("pool." +:+ post)
            then "" +:+ drop_string 5 ("pool." +:+ post)
            else String "p" (Replace1 ("ool." +:+ post) "pool." "")).
    by rewrite Hp. }
  cbn [contains]. rewrite orb_false_iff. intros [Hp Hrest].
  change (String c pre +:+ "pool." +:+ post)
    with (String c (pre +:+ "pool." +:+ post)).
  change (String c pre +:+ post) with (String c (pre +:+ post)).
  change (Replace1 (String c (pre +:+ "pool." +:+ post)) "pool." "")
    with (if String.prefix "pool." (String c (pre +:+ "pool." +:+ post))
          then "" +:+ drop_string 5 (String c (pre +:+ "pool." +:+ post))
          else String c (Replace1 (pre +:+ "pool." +:+ post) "pool." "")).
  destruct (String.prefix "pool." (String c (pre +:+ "pool." +:+ post))) eqn:Hs.
  - change (String c (pre +:+ "pool." +:+ post))
      with (String c pre +:+ "pool." +:+ post) in Hs.
    apply prefix_pool_straddle in Hs. congruence.
  - by rewrite IH.
Qed.

End GoStringsFacts.

(** ** The action registry *)

Module ActionsFacts.
Import Actions.

(** C6.  Once an action of id [a1] and name [My Action] is added to
    the registry, [MakeActionRef "a1"] is the pair ([a1], [My Action]);
    for an id the registry has no action for, [MakeActionRef] is the
    empty reference; and the empty reference marshals to [null], not
    to an array of two empty strings. *)
Theorem action_identity :
  (forall (Registry : Collection) (ty model domain help : string),
     (MakeActionRef
        (Add Registry (mkBaseAction "a1" ty "My Action" model domain help)).1
        "a1").1 = ("a1", "My Action")) /\
  (forall (Registry : Collection) (id : string),
     (GetById Registry id).1 = None ->
     (MakeActionRef Registry id).1 = emptyRef) /\
  MarshalJSON emptyRef = (JNull, None) /\
  (MarshalJSON emptyRef).1 <> JArray [""; ""].
Proof.
  repeat split.
  - intros Registry ty model domain help.
    unfold MakeActionRef, GetById, Add; simpl.
    by rewrite lookup_insert_eq.
  - intros Registry id Hnone.
    unfold MakeActionRef, GetById in *; simpl in *.
    by rewrite Hnone.
  - discriminate.
Qed.

(** C10.  [Scan] returns an error exactly when the source is neither
    a string nor a byte slice; on an error the receiver is what it
    was; on a string, and on a byte slice read as a string, the
    receiver becomes [MakeActionRef] of it and the error is [nil]. *)
Theorem Scan_error_iff (Registry : Collection) (ar : ActionRef) (src : value) :
  let '(ar', err, _) := Scan Registry ar src in
  (is_Some err <-> (forall s, src <> VString s) /\ (forall b, src <> VBytes b)) /\
  (is_Some err -> ar' = ar) /\
  (forall s, src = VString s -> ar' = (MakeActionRef Registry s).1 /\ err = None) /\
  (forall b, src = VBytes b ->
     ar' = (MakeActionRef Registry (string_of_list_byte b)).1 /\ err = None).
Proof.
  destruct src as [|s|b|t]; simpl.
  - split; [split|]; [intros _; split; discriminate | eauto | ].
    repeat split; intros; discriminate.
  - destruct (MakeActionRef Registry s) as [r tr] eqn:E.
    split; [split|split; [|split]].
    + intros [e He]; discriminate.
    + intros [H _]. by destruct (H s).
    + intros [e He]; discriminate.
    + intros s' [= <-]. by rewrite E.
    + intros b; discriminate.
  - destruct (MakeActionRef Registry (string_of_list_byte b)) as [r tr] eqn:E.
    split; [split|split; [|split]].
    + intros [e He]; discriminate.
    + intros [_ H]. by destruct (H b).
    + intros [e He]; discriminate.
    + intros s; discriminate.
    + intros b' [= <-]. by rewrite E.
  - split; [split|]; [intros _; split; discriminate | eauto | ].
    repeat split; intros; discriminate.
Qed.

(** C8.  [Add] writes the map under the write lock, but [GetById], and
    [MakeActionRef] through it, read the map with no lock held: the
    reads of the lookup table are not guarded. *)
Theorem GetById_not_guarded (ar : Collection) (id : string) (a : BaseAction) :
  guarded Unlocked (GetById ar id).2 = false /\
  guarded Unlocked (Add ar a).2 = true /\
  guarded Unlocked (MakeActionRef ar id).2 = false.
Proof.
  repeat split. unfold MakeActionRef, GetById. by destruct (actions ar !! id).
Qed.

(** *** Registering and looking up *)

(** X1.  After [Add] of an action, [GetById] finds that action under
    its ID, and under any other id what it found before. *)
Theorem GetById_Add (ar : Collection) (a : BaseAction) (id : string) :
  (GetById (Add ar a).1 id).1 =
  if decide (id = ID a) then Some a else (GetById ar id).1.
Proof.
  unfold GetById, Add. cbn [fst actions].
  destruct (decide (id = ID a)) as [->|Hne].
  - by rewrite lookup_insert_eq.
  - by rewrite lookup_insert_ne.
Qed.

(** X2.  An action added under the ID of an earlier one replaces it;
    actions of different IDs may be added in either order; adding an
    action a second time changes nothing. *)
Theorem Add_last_wins (ar : Collection) (a b : BaseAction) :
  (ID a = ID b -> (Add (Add ar a).1 b).1 = (Add ar b).1) /\
  (ID a <> ID b -> (Add (Add ar a).1 b).1 = (Add (Add ar b).1 a).1) /\
  (Add (Add ar a).1 a).1 = (Add ar a).1.
Proof.
  unfold Add. cbn [fst actions]. split; [|split].
  - intros ->. by rewrite insert_insert_eq.
  - intros Hne. f_equal. by apply insert_insert_ne.
  - by rewrite insert_insert_eq.
Qed.

Lemma registered_lookup (l : list BaseAction) (ar : Collection) (id : string) :
  actions (fold_left (fun ar a => (Add ar a).1) l ar) !! id =
  match last (filter (fun a => ID a = id) l) with
  | Some a => Some a
  | None => actions ar !! id
  end.
Proof.
  revert ar. induction l as [|a l IH]; intros ar; [done|].
  cbn [fold_left]. rewrite IH, filter_cons.
  destruct (decide (ID a = id)) as [<-|Hne].
  - rewrite last_cons. destruct (last (filter _ l)); [done|].
    unfold Add; cbn. by rewrite lookup_insert_eq.
  - destruct (last (filter _ l)); [done|].
    unfold Add; cbn. by rewrite lookup_insert_ne.
Qed.

(** X3.  In a registry filled by a sequence of [Add], [GetById] finds
    the last action added with the id, and [MakeActionRef] is the id
    with the name of that action; both find nothing for an id no
    action was added with. *)
Theorem MakeActionRef_registered (l : list BaseAction) (id : string) :
  (GetById (registered l) id).1 = last (filter (fun a => ID a = id) l) /\
  (MakeActionRef (registered l) id).1 =
    match last (filter (fun a => ID a = id) l) with
    | Some a => (ID a, Name a)
    | None => emptyRef
    end.
Proof.
  assert (actions (registered l) !! id = last (filter (fun a => ID a = id) l)) as H.
  { unfold registered. rewrite registered_lookup.
    destruct (last _); [done|]. apply lookup_empty. }
  split; [exact H|].
  unfold MakeActionRef, GetById. rewrite H.
  destruct (last _) as [a|] eqn:Hlast; [|done]. cbn.
  apply last_Some_elem_of in Hlast. by apply list_elem_of_filter in Hlast as [-> _].
Qed.

(** *** References *)

(** X4.  The reference made for an id marshals to [null] exactly when
    the id is empty or the registry has no action for it, an action
    registered under the empty id included; the reference of any other
    registered id marshals to the array of the id and the name as the
    encoder writes them, which are the id and the name themselves when
    they are valid UTF-8. *)
Theorem MarshalJSON_MakeActionRef (Registry : Collection) (id : string) :
  ((MarshalJSON (MakeActionRef Registry id).1).1 = JNull <->
     id = "" \/ (GetById Registry id).1 = None) /\
  (forall a, id <> "" -> (GetById Registry id).1 = Some a ->
     MarshalJSON (MakeActionRef Registry id).1
       = (JArray [jsonString id; jsonString (Name a)], None)) /\
  (forall a, id <> "" -> (GetById Registry id).1 = Some a ->
     jsonString id = id -> jsonString (Name a) = Name a ->
     MarshalJSON (MakeActionRef Registry id).1 = (JArray [id; Name a], None)).
Proof.
  unfold MakeActionRef, GetById, MarshalJSON. cbn [fst].
  destruct (actions Registry !! id) as [a|]; cbn [fst snd emptyRef].
  - split; [|split].
    + destruct (decide (id = "")); cbn; split; try tauto; try done.
      intros [?|?]; done.
    + intros a' Hne [= <-]. by rewrite decide_False.
    + intros a' Hne [= <-] -> ->. by rewrite decide_False.
  - split; [|done]. rewrite decide_True by done. cbn. tauto.
Qed.

(** X5.  Two references whose ids and names are valid UTF-8, which
    the encoder writes as they are, marshal to the same JSON value
    exactly when they are equal or both have an empty id: [null]
    forgets the name that stands beside an empty id, and nothing else
    is lost. *)
Theorem MarshalJSON_injective (r1 r2 : ActionRef) :
  jsonString r1.1 = r1.1 -> jsonString r1.2 = r1.2 ->
  jsonString r2.1 = r2.1 -> jsonString r2.2 = r2.2 ->
  ((MarshalJSON r1).1 = (MarshalJSON r2).1 <->
   r1 = r2 \/ (r1.1 = "" /\ r2.1 = "")).
Proof.
  destruct r1 as [id1 n1], r2 as [id2 n2]. unfold MarshalJSON. cbn [fst snd].
  intros -> -> -> ->.
  destruct (decide (id1 = "")) as [->|H1], (decide (id2 = "")) as [->|H2];
    cbn [fst]; split; try done; try tauto.
  - intros [[= <- _]|[_ ?]]; done.
  - intros [[= -> _]|[? _]]; done.
  - intros [= -> ->]. by left.
  - intros [[= -> ->]|[? _]]; done.
Qed.

(** X5 on two references of ASCII strings. *)
Lemma MarshalJSON_injective_witness :
  jsonString "a1" = "a1" /\ jsonString "My Action" = "My Action" /\
  jsonString "a2" = "a2" /\ jsonString "Other" = "Other" /\
  ((MarshalJSON ("a1", "My Action")).1 = (MarshalJSON ("a2", "Other")).1 <->
   ("a1", "My Action") = ("a2", "Other") \/
   (("a1", "My Action").1 = "" /\ ("a2", "Other").1 = "")).
Proof.
  split; [vm_compute; reflexivity|].
  split; [vm_compute; reflexivity|].
  split; [vm_compute; reflexivity|].
  split; [vm_compute; reflexivity|].
  apply (MarshalJSON_injective ("a1", "My Action") ("a2", "Other"));
    vm_compute; reflexivity.
Defined.

(** Two references that differ by a byte that is no UTF-8 marshal to
    the same value, [U+FFFD] standing for either byte. *)
Lemma invalid_bytes_marshal_alike :
  MarshalJSON (String (ascii_of_nat 255) "", "n")
  = MarshalJSON (String (ascii_of_nat 254) "", "n").
Proof. vm_compute; reflexivity. Qed.

(** X6.  Storing a reference made by [MakeActionRef] with [Value] and
    reading it back with [Scan] restores it, without error, exactly
    when its id is registered or the registry holds no named action
    under the empty id; and [Scan] reads the bytes of a string as it
    reads the string. *)
Theorem Value_Scan_round_trip (Registry : Collection) (id : string) (ar0 : ActionRef) :
  ((Scan Registry ar0 (VString (Value (MakeActionRef Registry id).1).1)).1
     = ((MakeActionRef Registry id).1, None) <->
   is_Some (actions Registry !! id) \/
   match actions Registry !! "" with
   | Some a => Name a = ""
   | None => True
   end) /\
  (forall s, Scan Registry ar0 (VBytes (list_byte_of_string s)) =
             Scan Registry ar0 (VString s)).
Proof.
  split.
  - unfold Scan, Value, MakeActionRef, GetById. cbn [fst].
    destruct (actions Registry !! id) as [a|] eqn:Hid; cbn [fst snd emptyRef].
    + rewrite Hid. cbn. split; [intros _; left; by eexists|done].
    + destruct (actions Registry !! "") as [a0|]; cbn.
      * split.
        -- intros [= ?]. by right.
        -- intros [[? [=]]| ->]. done.
      * split; [by right|done].
  - intros s. unfold Scan. by rewrite string_of_list_byte_of_string.
Qed.

(** *** Loading *)

(** X7.  [LoadFromEtree] panics exactly when the element does not
    decode.  When it decodes to an action, the action is registered
    under the write lock: [MakeActionRef] of its ID is the ID and its
    name, whatever the registry held under that ID, and the other ids
    are found as before. *)
Theorem LoadFromEtree_registers {Element : Type} (ElementToXML : Element -> string)
    (Unmarshal : string -> BaseAction + string)
    (Registry : Collection) (element : Element) :
  (LoadFromEtree Element ElementToXML Unmarshal Registry element = None <->
     exists err, Unmarshal (ElementToXML element) = inr err) /\
  (forall a, Unmarshal (ElementToXML element) = inl a ->
     exists Registry' tr,
       LoadFromEtree Element ElementToXML Unmarshal Registry element
         = Some (Registry', tr) /\
       guarded Unlocked tr = true /\
       (MakeActionRef Registry' (ID a)).1 = (ID a, Name a) /\
       (forall id, id <> ID a ->
          (GetById Registry' id).1 = (GetById Registry id).1)).
Proof.
  unfold LoadFromEtree. split.
  - destruct (Unmarshal _) as [a|err]; split; try done.
    + intros [? [=]].
    + by eexists.
  - intros a ->. eexists _, _. split; [done|]. split; [done|]. split.
    + unfold MakeActionRef, GetById, Add. cbn. by rewrite lookup_insert_eq.
    + intros id Hne. unfold GetById, Add. cbn. by rewrite lookup_insert_ne.
Qed.

End ActionsFacts.

(** ** The pool generator *)

Module ModelsFacts.
Import GoStrings GoStringsFacts Models.

(** *** The resolution of a method's names *)

Lemma firstMatch_app astData methodName l1 l2 :
  firstMatch astData methodName (l1 ++ l2) =
  match firstMatch astData methodName l1 with
  | Some d => Some d
  | None => firstMatch astData methodName l2
  end.
Proof.
  induction l1 as [|m l1 IH]; simpl; [done|].
  by destruct (astData !! (m, methodName)).
Qed.

Lemma mixInLoop_firstMatch astData allMixIns methodName k :
  k <= length allMixIns ->
  mixInLoop astData allMixIns methodName k =
  firstMatch astData methodName (rev (map name (take k allMixIns))).
Proof.
  induction k as [|i IH]; intros Hk; [done|].
  destruct (lookup_lt_is_Some_2 allMixIns i) as [mixIn Hi]; [lia|].
  rewrite (take_S_r _ _ _ Hi), map_app, rev_app_distr. simpl.
  rewrite Hi. destruct (astData !! (name mixIn, methodName)); [done|].
  apply IH. lia.
Qed.

(** C4.  The names and the documentation recovered for a method are
    those of the first key found in this order: the model itself;
    its mixins, from the last applied to the first; the empty model
    name.  When no key is found they are empty. *)
Theorem lookupASTData_order reg mi astData methodName :
  lookupASTData reg mi astData methodName =
  default noASTData (firstMatch astData methodName (lookupOrder reg mi)).
Proof.
  unfold lookupASTData, lookupOrder. simpl.
  destruct (astData !! (name mi, methodName)); [done|].
  rewrite mixInLoop_firstMatch by done.
  rewrite firstn_all, firstMatch_app. simpl.
  destruct (firstMatch _ _ (rev _)); [done|].
  by destruct (astData !! ("", methodName)).
Qed.

(** *** Reading a [map[string]bool] *)

Lemma readBool_insert (m : gmap string bool) (k k' : string) :
  readBool (<[k := true]> m) k' = bool_decide (k = k') || readBool m k'.
Proof.
  unfold readBool. destruct (decide (k = k')) as [->|Hne].
  - by rewrite lookup_insert_eq, bool_decide_true.
  - by rewrite lookup_insert_ne, bool_decide_false.
Qed.

Lemma specificMethods_spec (methodName : string) :
  readBool specificMethods methodName = true <->
  methodName ∈ ["Create"; "First"; "All"].
Proof.
  unfold specificMethods. rewrite !readBool_insert.
  unfold readBool. rewrite lookup_empty. simpl.
  rewrite !orb_true_iff, !bool_decide_eq_true, !elem_of_cons, elem_of_nil.
  intuition congruence.
Qed.

(** *** Loops *)

(** A loop panics as soon as one of its rounds panics in every state. *)
Lemma forEach_panics {A S : Type} (body : S -> A -> option S) (l : list A) (x : A) (s : S) :
  x ∈ l -> (forall s', body s' x = None) -> forEach body l s = None.
Proof.
  intros Hx Hnone. revert s.
  induction l as [|y l IH]; intros s; [by apply elem_of_nil in Hx|].
  apply elem_of_cons in Hx as [<-|Hx]; simpl.
  - by rewrite Hnone.
  - destruct (body s y); simpl; [by apply IH|done].
Qed.

(** Two bodies that agree on the elements of a list run alike. *)
Lemma forEach_ext {A S : Type} (body1 body2 : S -> A -> option S) (l : list A) (s : S) :
  (forall s' x, x ∈ l -> body1 s' x = body2 s' x) ->
  forEach body1 l s = forEach body2 l s.
Proof.
  revert s. induction l as [|y l IH]; intros s Hext; simpl; [done|].
  rewrite (Hext s y) by left.
  destruct (body2 s y); simpl; [|done].
  apply IH. intros s' x Hx. apply Hext. by right.
Qed.

Lemma forEach_app {A S : Type} (body : S -> A -> option S) (l1 l2 : list A) (s : S) :
  forEach body (l1 ++ l2) s = s' ← forEach body l1 s; forEach body l2 s'.
Proof.
  revert s. induction l1 as [|x l1 IH]; intros s; simpl; [done|].
  destruct (body s x); simpl; [apply IH|done].
Qed.

Lemma forEach_is_Some {A S : Type} (body : S -> A -> option S) (l : list A) (s : S) :
  (forall x s', x ∈ l -> is_Some (body s' x)) -> is_Some (forEach body l s).
Proof.
  revert s. induction l as [|y l IH]; intros s Hall; simpl; [by eexists|].
  destruct (Hall y s) as [s1 ->]; [left|]. simpl.
  apply IH. intros x s' Hx. apply Hall. by right.
Qed.

Lemma forEach_Some_inv {A S : Type} (body : S -> A -> option S) (l : list A) (s s' : S) (x : A) :
  forEach body l s = Some s' -> x ∈ l -> exists s1, is_Some (body s1 x).
Proof.
  revert s. induction l as [|y l IH]; intros s Hrun Hx; [by apply elem_of_nil in Hx|].
  simpl in Hrun. destruct (body s y) as [s1|] eqn:Hy; [|done]. simpl in Hrun.
  apply elem_of_cons in Hx as [->|Hx].
  - exists s. by rewrite Hy.
  - by eapply IH.
Qed.

(** *** The order of first occurrence *)

Lemma firstOccurrences_filter (P : string -> Prop) `{!forall p, Decision (P p)}
    (l : list string) :
  firstOccurrences (filter P l) = filter P (firstOccurrences l).
Proof.
  induction l as [|p l IH]; [done|].
  rewrite filter_cons. destruct (decide (P p)) as [Hp|Hp]; simpl.
  - rewrite filter_cons_True by done. f_equal.
    rewrite IH, !list_filter_filter. apply list_filter_iff. tauto.
  - rewrite filter_cons_False by done.
    rewrite list_filter_filter_l; [done|]. by intros q Hq ->.
Qed.

Lemma elem_of_firstOccurrences (l : list string) (p : string) :
  p ∈ firstOccurrences l <-> p ∈ l.
Proof.
  induction l as [|q l IH]; simpl; [done|].
  rewrite !elem_of_cons, list_elem_of_filter, IH.
  destruct (decide (p = q)); tauto.
Qed.

Lemma NoDup_firstOccurrences (l : list string) : NoDup (firstOccurrences l).
Proof.
  induction l as [|q l IH]; simpl; constructor.
  - rewrite list_elem_of_filter. tauto.
  - by apply NoDup_filter.
Qed.

Lemma firstOccurrences_snoc (l : list string) (p : string) :
  firstOccurrences (l ++ [p]) =
  if decide (p ∈ l) then firstOccurrences l else firstOccurrences l ++ [p].
Proof.
  induction l as [|q l IH]; simpl; [done|].
  rewrite IH. destruct (decide (p ∈ l)) as [Hin|Hin].
  - rewrite decide_True; [done|by right].
  - rewrite filter_app, filter_cons, filter_nil.
    destruct (decide (p = q)) as [->|Hne].
    + rewrite (decide_True (P := q ∈ q :: l)) by left.
      rewrite (decide_False (P := q <> q)) by tauto.
      by rewrite app_nil_r.
    + rewrite (decide_False (P := p ∈ q :: l)) by (rewrite elem_of_cons; tauto).
      by rewrite (decide_True (P := p <> q)).
Qed.

(** In a list without repetition an element stands once. *)
Lemma NoDup_occurrences (l : list string) (p : string) :
  NoDup l ->
  length (filter (fun q => q = p) l) = if decide (p ∈ l) then 1 else 0.
Proof.
  induction 1 as [|q l Hq Hnd IH]; [done|].
  rewrite filter_cons. destruct (decide (q = p)) as [->|Hne]; simpl.
  - rewrite decide_True by left. rewrite IH, decide_False; done.
  - rewrite IH. apply decide_ext. rewrite elem_of_cons. intuition congruence.
Qed.

(** *** Entries emitted for the members of a map *)

Lemma map_fmap {A B : Type} (f : A -> B) (l : list A) : map f l = f <$> l.
Proof. reflexivity. Qed.

Lemma NoDup_fst_filter {V : Type} (P : string * V -> Prop) `{!forall e, Decision (P e)}
    (l : list (string * V)) :
  NoDup (map fst l) -> NoDup (map fst (filter P l)).
Proof.
  intros Hnd. apply (sublist_NoDup _ (fst <$> l)); [exact Hnd|].
  rewrite map_fmap. apply fmap_sublist, sublist_filter.
Qed.

Lemma zip_with_snoc {A B C : Type} (f : A -> B -> C) (l : list A) (k : list B) (x : A) (y : B) :
  l !! length k = Some x ->
  zip_with f l (k ++ [y]) = zip_with f l k ++ [f x y].
Proof.
  intros Hx.
  pose proof (take_drop_middle l (length k) x Hx) as Hl.
  assert (length (take (length k) l) = length k) as Hlen.
  { rewrite length_take. apply lookup_lt_Some in Hx. lia. }
  revert Hl Hlen. generalize (take (length k) l) (drop (S (length k)) l).
  intros l1 l2 <- Hlen.
  rewrite zip_with_app by done.
  rewrite <- (app_nil_r k) at 2. rewrite zip_with_app by done.
  simpl. by rewrite zip_with_nil_r, app_nil_r.
Qed.

Lemma insert_next {A : Type} (l : list A) (x y : A) (m : nat) :
  <[length l := y]> (l ++ replicate (S m) x) = (l ++ [y]) ++ replicate m x.
Proof.
  rewrite insert_app_r_alt by done. rewrite Nat.sub_diag. simpl.
  by rewrite <- app_assoc.
Qed.

Lemma Forall2_and {A B : Type} (R1 R2 : A -> B -> Prop) (l : list A) (k : list B) :
  Forall2 R1 l k -> Forall2 R2 l k -> Forall2 (fun a b => R1 a b /\ R2 a b) l k.
Proof.
  intros H1. induction H1; intros H2; inversion H2; subst; constructor; auto.
Qed.

Section Entries.

Context {V B : Type} (R : string * V -> B -> Prop) (key : B -> string).
Hypothesis key_of_entry : forall e b, R e b -> key b = e.1.

(** No entry bears a name that no member bears. *)
Lemma no_entry (l : list (string * V)) (bs : list B) (n : string) :
  Forall2 R l bs -> n ∉ map fst l -> filter (fun b => key b = n) bs = [].
Proof.
  induction 1 as [|e b l bs HR _ IH]; [done|]. simpl.
  rewrite not_elem_of_cons. intros [Hne Hnot].
  rewrite filter_cons_False; [by apply IH|].
  rewrite (key_of_entry e b HR). congruence.
Qed.

(** A member bears a name of its own, and so has one entry. *)
Lemma one_entry (l : list (string * V)) (bs : list B) (n : string) (v : V) :
  Forall2 R l bs -> NoDup (map fst l) -> (n, v) ∈ l ->
  exists b, filter (fun b => key b = n) bs = [b] /\ R (n, v) b.
Proof.
  induction 1 as [|e b l bs HR Hall IH]; intros Hnd Hin.
  - by apply elem_of_nil in Hin.
  - simpl in Hnd. apply NoDup_cons in Hnd as [Hfresh Hnd].
    apply elem_of_cons in Hin as [<-|Hin].
    + exists b. split; [|done].
      rewrite filter_cons_True by (by rewrite (key_of_entry _ _ HR)).
      f_equal. by eapply no_entry.
    + destruct (IH Hnd Hin) as (b' & Hb' & HR'). exists b'. split; [|done].
      rewrite filter_cons_False; [done|].
      rewrite (key_of_entry e b HR). intros Heq. apply Hfresh.
      rewrite Heq, map_fmap. apply list_elem_of_fmap. by exists (n, v).
Qed.

End Entries.

Local Arguments addDependency : simpl never.
Local Arguments sanitizedFieldType : simpl never.
Local Arguments lookupASTData : simpl never.

(** Closes the leading conjuncts that say what a step leaves as it
    was. *)
Local Ltac unchanged := repeat (split; [first [done | congruence] |]).

(** *** The import list *)

Lemma addDependency_spec (d d' : modelData) (typ : rtype) (deps deps' : gmap string bool) :
  addDependency d typ deps = (d', deps') ->
  Deps d' = Deps d ++
    (if decide (unlisted deps (depPath typ)) then [depPath typ] else []) /\
  deps' = <[depPath typ := true]> deps /\
  Name d' = Name d /\ Fields d' = Fields d /\ Methods d' = Methods d.
Proof.
  unfold addDependency. fold (depPath typ). intros [= <- <-].
  assert (negb (bool_decide (depPath typ = "")) && negb (readBool deps (depPath typ))
          = bool_decide (unlisted deps (depPath typ))) as ->.
  { unfold unlisted. destruct (decide (depPath typ = "")) as [->|Hne].
    - rewrite bool_decide_true by done. symmetry. apply bool_decide_false. tauto.
    - rewrite (bool_decide_false (depPath typ = "")) by done.
      destruct (readBool deps (depPath typ)).
      + symmetry. apply bool_decide_false. intros [_ ?]; done.
      + symmetry. by apply bool_decide_true. }
  destruct (decide (unlisted deps (depPath typ))) as [Hyes|Hno].
  - by rewrite bool_decide_true.
  - rewrite bool_decide_false by done. by rewrite app_nil_r.
Qed.

Lemma tracked_start (L0 : list string) (deps0 : gmap string bool) :
  tracked L0 deps0 [] L0 deps0.
Proof.
  split; [simpl; by rewrite app_nil_r|].
  intros p. change (map depPath []) with (@nil string).
  rewrite bool_decide_false; [by rewrite orb_false_r|]. apply not_elem_of_nil.
Qed.

Lemma tracked_step L0 deps0 ts (d d' : modelData) typ (deps deps' : gmap string bool) :
  tracked L0 deps0 ts (Deps d) deps ->
  addDependency d typ deps = (d', deps') ->
  tracked L0 deps0 (ts ++ [typ]) (Deps d') deps'.
Proof.
  intros [HL Hdeps] Hadd.
  apply addDependency_spec in Hadd as (HD & -> & _).
  set (p := depPath typ) in *.
  split.
  - rewrite HD, HL, map_app, filter_app. simpl.
    rewrite filter_cons, filter_nil. fold p.
    rewrite <- app_assoc. f_equal.
    assert (unlisted deps p <-> unlisted deps0 p /\ p ∉ map depPath ts) as Hiff.
    { unfold unlisted. rewrite Hdeps, orb_false_iff, bool_decide_eq_false. tauto. }
    rewrite (decide_ext _ _ _ _ Hiff).
    destruct (decide (unlisted deps0 p)) as [Hu|Hu].
    + rewrite firstOccurrences_snoc.
      destruct (decide (p ∈ map depPath ts)) as [Hin|Hin].
      * rewrite decide_False by tauto.
        rewrite decide_True; [by rewrite app_nil_r|].
        apply list_elem_of_filter. by split.
      * rewrite decide_True by done.
        rewrite decide_False; [done|].
        rewrite list_elem_of_filter. tauto.
    + rewrite decide_False by tauto. by rewrite !app_nil_r.
  - intros q. rewrite readBool_insert, Hdeps, map_app. simpl. fold p.
    destruct (decide (p = q)) as [->|Hne].
    + rewrite bool_decide_true by done.
      rewrite (bool_decide_true (q ∈ _ ++ _)); [by rewrite orb_true_r|].
      apply elem_of_app. right. left.
    + rewrite bool_decide_false by done. simpl. f_equal.
      apply bool_decide_ext. rewrite elem_of_app, list_elem_of_singleton.
      intuition congruence.
Qed.

(** X8.  Resolving a type a second time changes neither the import
    list nor the marks, and a pointer to a type resolves as the type.
    A resolution keeps the marks it finds and marks the path of the
    type; it leaves the import list as it was, or adds that path, not
    empty, at its end. *)
Theorem addDependency_again (d : modelData) (typ : rtype) (deps : gmap string bool) :
  let '(d1, deps1) := addDependency d typ deps in
  addDependency d1 typ deps1 = (d1, deps1) /\
  addDependency d (TPtr typ) deps = (d1, deps1) /\
  (forall p, readBool deps p = true -> readBool deps1 p = true) /\
  readBool deps1 (depPath typ) = true /\
  (Deps d1 = Deps d \/ (depPath typ <> "" /\ Deps d1 = Deps d ++ [depPath typ])).
Proof.
  destruct (addDependency d typ deps) as [d1 deps1] eqn:Hadd.
  pose proof Hadd as Hspec.
  apply addDependency_spec in Hspec as (HD & -> & _).
  split; [|split; [|split; [|split]]].
  - destruct (addDependency d1 typ _) as [d2 deps2] eqn:Hagain.
    unfold addDependency in Hagain. fold (depPath typ) in Hagain.
    rewrite readBool_insert, (bool_decide_true (depPath typ = depPath typ)) in Hagain by done.
    cbn [orb negb] in Hagain. rewrite andb_false_r in Hagain.
    injection Hagain as <- <-. by rewrite insert_insert_eq.
  - by rewrite <- Hadd.
  - intros p Hp. rewrite readBool_insert, Hp. apply orb_true_r.
  - by rewrite readBool_insert, bool_decide_true.
  - rewrite HD. destruct (decide (unlisted deps (depPath typ))) as [[Hne _]|_].
    + by right.
    + left. by rewrite app_nil_r.
Qed.

(** X9.  From an import list without repetition whose paths are
    the marked ones, the empty path apart, a resolution leads to such
    a list again, in which the path of the resolved type, when it is
    not empty, stands once. *)
Theorem addDependency_consistent (d : modelData) (typ : rtype) (deps : gmap string bool) :
  consistent (Deps d) deps ->
  consistent (Deps (addDependency d typ deps).1) (addDependency d typ deps).2 /\
  (depPath typ <> "" ->
     length (filter (fun p => p = depPath typ) (Deps (addDependency d typ deps).1)) = 1).
Proof.
  intros [Hnd Hagree].
  destruct (addDependency d typ deps) as [d1 deps1] eqn:Hadd.
  apply addDependency_spec in Hadd as (HD & -> & _). cbn [fst snd].
  assert (consistent (Deps d1) (<[depPath typ:=true]> deps)) as Hcons.
  { rewrite HD. destruct (decide (unlisted deps (depPath typ))) as [[Hne Hun]|Hno].
    - split.
      + apply NoDup_app. split; [done|]. split; [|apply NoDup_singleton].
        intros p Hp ->%list_elem_of_singleton.
        apply Hagree in Hp; [congruence|done].
      + intros p Hp. rewrite elem_of_app, list_elem_of_singleton, readBool_insert.
        rewrite orb_true_iff, bool_decide_eq_true, (Hagree p Hp). intuition congruence.
    - rewrite app_nil_r. split; [done|].
      intros p Hp. rewrite readBool_insert, orb_true_iff, bool_decide_eq_true.
      rewrite (Hagree p Hp). split; [tauto|]. intros [<-|?]; [|done].
      unfold unlisted in Hno. destruct (readBool deps (depPath typ)); [done|].
      destruct Hno. by split. }
  split; [done|]. intros Hne. destruct Hcons as [Hnd1 Hagree1].
  rewrite NoDup_occurrences by done. rewrite decide_True; [done|].
  apply Hagree1; [done|]. by rewrite readBool_insert, bool_decide_true.
Qed.

(** *** The order of a [range] statement *)

Section Range.

Variable range : forall V : Type, gmap string V -> list (string * V).
Hypothesis range_perm : forall (V : Type) (m : gmap string V),
  range V m ≡ₚ map_to_list m.

Lemma range_elem_of {V : Type} (m : gmap string V) (n : string) (v : V) :
  (n, v) ∈ range V m <-> m !! n = Some v.
Proof. by rewrite range_perm, elem_of_map_to_list. Qed.

Lemma range_NoDup {V : Type} (m : gmap string V) : NoDup (map fst (range V m)).
Proof. rewrite map_fmap, range_perm. apply NoDup_fst_map_to_list. Qed.

End Range.

Section Loops.

Variable ModelsPath : string.

Local Abbreviation RCType := (RecordCollectionType ModelsPath).
Local Abbreviation sanitized := (sanitizedFieldType ModelsPath).
Local Abbreviation emitsF := (emitsField ModelsPath).
Local Abbreviation emitsM := (emitsMethod ModelsPath).
Local Abbreviation emitsP := (emitsParams ModelsPath).
Local Abbreviation ptText := (paramTypeText ModelsPath).

(** *** The loop over the fields *)

Lemma addField_spec mi L0 deps0 ts (d d' : modelData) (deps deps' : gmap string bool)
    (entry : string * fieldInfo) :
  addField ModelsPath mi (d, deps) entry = (d', deps') ->
  tracked L0 deps0 ts (Deps d) deps ->
  tracked L0 deps0 (ts ++ [structFieldType entry.2]) (Deps d') deps' /\
  Name d' = Name d /\ Methods d' = Methods d /\
  exists fd, Fields d' = Fields d ++ [fd] /\ emitsF mi entry fd.
Proof.
  destruct entry as [fieldName fi]. unfold addField.
  destruct (if isRelationField fi then _ else _) as [typStr typIsRS] eqn:Htyp.
  intros Hadd Htr.
  split; [by eapply tracked_step, Hadd|].
  apply addDependency_spec in Hadd as (_ & _ & -> & -> & ->). simpl.
  split; [done|]. split; [done|].
  eexists; split; [done|]. split; [done|]. simpl. by rewrite Htyp.
Qed.

Lemma addFields_spec mi L0 deps0 (l : list (string * fieldInfo)) :
  forall ts (d d' : modelData) (deps deps' : gmap string bool),
  fold_left (addField ModelsPath mi) l (d, deps) = (d', deps') ->
  tracked L0 deps0 ts (Deps d) deps ->
  tracked L0 deps0 (ts ++ map (fun entry => structFieldType entry.2) l) (Deps d') deps' /\
  Name d' = Name d /\ Methods d' = Methods d /\
  exists fds, Fields d' = Fields d ++ fds /\ Forall2 (emitsF mi) l fds.
Proof.
  induction l as [|entry l IH]; intros ts d d' deps deps' Hfold Htr;
    cbn [fold_left map] in *.
  - injection Hfold as <- <-. rewrite app_nil_r.
    unchanged.
    exists []. by rewrite app_nil_r.
  - destruct (addField ModelsPath mi (d, deps) entry) as [d1 deps1] eqn:Hadd.
    eapply addField_spec in Hadd as (Htr1 & HN & HM & fd & HF & Hfd); [|done].
    apply (IH _ _ _ _ _ Hfold) in Htr1 as (Htr2 & HN2 & HM2 & fds & HF2 & Hfds).
    rewrite <- app_assoc in Htr2.
    unchanged.
    exists (fd :: fds). split; [|by constructor].
    by rewrite HF2, HF, <- app_assoc.
Qed.

(** *** The loop over the parameters of a method *)

Lemma addParam_spec mi methType dParams (st st' : sigState) (i : nat) :
  addParam ModelsPath mi methType dParams st i = Some st' ->
  exists inTyp,
    ins methType !! S i = Some inTyp /\
    is_Some (Params dParams !! i) /\
    addDependency st.1.2 inTyp st.2 = (st'.1.2, st'.2).
Proof.
  destruct st as [[[params paramsType] d] deps]. unfold addParam.
  rewrite Nat.add_1_r.
  destruct (ins methType !! S i) as [inTyp|]; [|done]. simpl.
  destruct (if IsVariadic methType && _ then _ else _) as [[pType isRC]|]; [|done].
  simpl. destruct (Params dParams !! i) as [pName|]; [|done]. simpl.
  destruct (addDependency d inTyp deps) as [d1 deps1].
  intros [= <-]. by exists inTyp.
Qed.

Lemma addParams_spec mi methType dParams L0 deps0 (k : nat) :
  forall (a : nat) ts (st st' : sigState),
  forEach (addParam ModelsPath mi methType dParams) (seq a k) st = Some st' ->
  tracked L0 deps0 ts (Deps st.1.2) st.2 ->
  tracked L0 deps0 (ts ++ take k (drop (S a) (ins methType))) (Deps st'.1.2) st'.2 /\
  Name st'.1.2 = Name st.1.2 /\ Fields st'.1.2 = Fields st.1.2 /\
  Methods st'.1.2 = Methods st.1.2.
Proof.
  induction k as [|k IH]; intros a ts st st' Hloop Htr; cbn [seq forEach] in Hloop.
  - injection Hloop as <-. by rewrite take_0, app_nil_r.
  - destruct (addParam ModelsPath mi methType dParams st a) as [st1|] eqn:Hpar;
      [|done]. simpl in Hloop.
    apply addParam_spec in Hpar as (inTyp & Hin & _ & Hadd).
    pose proof (tracked_step _ _ _ _ _ _ _ _ Htr Hadd) as Htr1.
    apply addDependency_spec in Hadd as (_ & _ & HN & HF & HM).
    apply (IH _ _ _ _ Hloop) in Htr1 as (Htr2 & HN2 & HF2 & HM2).
    rewrite (drop_S _ _ _ Hin), firstn_cons.
    rewrite <- app_assoc in Htr2. simpl in Htr2.
    split; [done|]. split; [congruence|]. split; congruence.
Qed.

(** *** The loop over the methods *)

Lemma addMethod_spec reg mi astData L0 deps0 ts (d d' : modelData)
    (deps deps' : gmap string bool) (entry : string * methodInfo) :
  addMethod ModelsPath reg mi astData (d, deps) entry = Some (d', deps') ->
  tracked L0 deps0 ts (Deps d) deps ->
  tracked L0 deps0 (ts ++ methodTypes entry) (Deps d') deps' /\
  Name d' = Name d /\ Fields d' = Fields d /\
  exists mds, Methods d' = Methods d ++ mds /\
    Forall2 (emitsM mi)
      (filter (fun e => readBool specificMethods e.1 = false) [entry]) mds.
Proof.
  destruct entry as [methodName methInfo]. unfold addMethod, methodTypes.
  rewrite filter_cons, filter_nil. cbn [fst snd].
  destruct (readBool specificMethods methodName) eqn:Hspecific.
  { intros [= <- <-] Htr. rewrite app_nil_r.
    unchanged.
    exists []. rewrite app_nil_r. split; [done|].
    rewrite decide_False by done. constructor. }
  rewrite decide_True by done.
  unfold NumIn. destruct (ins (methodType methInfo)) as [|recv rest] eqn:Hins; [done|].
  cbn [length].
  destruct (forEach _ (seq 0 (length rest)) _) as [[[[params paramsType] d1] deps1]|]
    eqn:Hloop; [|done].
  cbn [mbind option_bind]. intros Hret Htr.
  eapply addParams_spec in Hloop as (Htr1 & HN1 & HF1 & HM1); [|exact Htr].
  rewrite Hins in Htr1. simpl in Htr1, HN1, HF1, HM1.
  rewrite drop_0, firstn_all in Htr1.
  revert Hret.
  destruct (outs (methodType methInfo)) as [|out0 outs'] eqn:Houts.
  - intros [= <- <-]. simpl. rewrite app_nil_r.
    unchanged.
    eexists; split; [by rewrite HM1|].
    constructor; [|constructor]. split; [done|]. split; [done|]. simpl.
    by rewrite Houts.
  - destruct (sanitized mi out0) as [r isRS] eqn:Hsan.
    destruct (addDependency d1 out0 deps1) as [d2 deps2] eqn:Hadd.
    intros [= <- <-]. simpl.
    pose proof (tracked_step _ _ _ _ _ _ _ _ Htr1 Hadd) as Htr2.
    apply addDependency_spec in Hadd as (_ & _ & HN2 & HF2 & HM2).
    rewrite <- app_assoc in Htr2.
    unchanged.
    eexists; split; [by rewrite HM2, HM1|].
    constructor; [|constructor]. split; [done|]. split; [done|]. simpl.
    by rewrite Houts, Hsan.
Qed.

Lemma addMethods_spec reg mi astData L0 deps0 (l : list (string * methodInfo)) :
  forall ts (d d' : modelData) (deps deps' : gmap string bool),
  forEach (addMethod ModelsPath reg mi astData) l (d, deps) = Some (d', deps') ->
  tracked L0 deps0 ts (Deps d) deps ->
  tracked L0 deps0 (ts ++ flat_map methodTypes l) (Deps d') deps' /\
  Name d' = Name d /\ Fields d' = Fields d /\
  exists mds, Methods d' = Methods d ++ mds /\
    Forall2 (emitsM mi)
      (filter (fun e => readBool specificMethods e.1 = false) l) mds.
Proof.
  induction l as [|entry l IH]; intros ts d d' deps deps' Hloop Htr;
    cbn [forEach flat_map] in *.
  - injection Hloop as <- <-. rewrite app_nil_r.
    unchanged.
    exists []. rewrite app_nil_r. split; [done|]. constructor.
  - destruct (addMethod ModelsPath reg mi astData (d, deps) entry)
      as [[d1 deps1]|] eqn:Hadd; [|done]. simpl in Hloop.
    eapply addMethod_spec in Hadd as (Htr1 & HN & HF & mds1 & HM & Hmds1); [|done].
    apply (IH _ _ _ _ _ Hloop) in Htr1 as (Htr2 & HN2 & HF2 & mds2 & HM2 & Hmds2).
    rewrite <- app_assoc in Htr2.
    unchanged.
    exists (mds1 ++ mds2). split; [by rewrite HM2, HM, <- app_assoc|].
    change (entry :: l) with ([entry] ++ l). rewrite filter_app.
    by apply Forall2_app.
Qed.

Lemma emitsField_key mi (e : string * fieldInfo) (fd : fieldData) :
  emitsF mi e fd -> FName fd = e.1.
Proof. by intros [? _]. Qed.

Lemma emitsMethod_key mi (e : string * methodInfo) (md : methodData) :
  emitsM mi e md -> MName md = e.1.
Proof. by intros [? _]. Qed.

Lemma sanitized_RecordCollection mi :
  sanitized mi RCType = (Replace1 (name mi +:+ "Set") "pool." "", true).
Proof. unfold sanitizedFieldType. by rewrite decide_True. Qed.

(** *** Panics *)

Lemma addParam_short_list mi methType dParams (st : sigState) (i : nat) :
  Params dParams !! i = None ->
  addParam ModelsPath mi methType dParams st i = None.
Proof.
  intros Hnone. destruct st as [[[params paramsType] d] deps]. unfold addParam.
  destruct (ins methType !! (i + 1)) as [inTyp|]; [|done]. cbn [mbind option_bind].
  destruct (if IsVariadic methType && _ then _ else _) as [[pType isRC]|]; [|done].
  cbn [mbind option_bind]. by rewrite Hnone.
Qed.

Lemma addMethod_short_list reg mi astData (st : modelData * gmap string bool)
    (methodName : string) (methInfo : methodInfo) :
  readBool specificMethods methodName = false ->
  length (Params (lookupASTData reg mi astData methodName))
    < NumIn (methodType methInfo) - 1 ->
  addMethod ModelsPath reg mi astData st (methodName, methInfo) = None.
Proof.
  intros Hns Hshort. destruct st as [d deps]. unfold addMethod. rewrite Hns.
  destruct (NumIn (methodType methInfo)) as [|n]; [done|].
  rewrite (forEach_panics _ _
             (length (Params (lookupASTData reg mi astData methodName)))); [done|..].
  - apply elem_of_seq. lia.
  - intros st'. apply addParam_short_list. by apply lookup_ge_None.
Qed.

(** *** The emitted name of a type *)

(** X10.  Of a type that is not [RecordCollection], the printed name
    is emitted as it is when [pool.] does not occur in it; where
    [pool.] occurs, its first occurrence is removed, wherever it
    stands, and what stands before and after it is kept. *)
Theorem first_pool_removed (mi : modelInfo) (typ : rtype) :
  (typ <> RCType -> contains "pool." (TypeString typ) = false ->
     sanitized mi typ = (TypeString typ, false)) /\
  (forall pre post,
     TypeString typ = pre +:+ "pool." +:+ post -> contains "pool." pre = false ->
     sanitized mi typ = (pre +:+ post, false)).
Proof.
  unfold sanitizedFieldType. split.
  - intros Hne Hno. rewrite decide_False by done. by rewrite Replace1_absent.
  - intros pre post Hstr Hpre.
    destruct (decide (typ = RCType)) as [->|Hne].
    + exfalso. pose proof (contains_pool_append pre post) as Hin.
      rewrite <- Hstr in Hin. vm_compute in Hin. discriminate.
    + by rewrite Hstr, Replace1_first_pool.
Qed.

(** *** The texts of the parameters *)

Lemma addParam_eq mi methType dParams ps pts (d : modelData) (deps : gmap string bool) (i : nat) :
  addParam ModelsPath mi methType dParams (ps, pts, d, deps) i =
  t ← ins methType !! S i;
  pt ← ptText mi (IsVariadic methType && bool_decide (i + 2 = NumIn methType)) t;
  pName ← Params dParams !! i;
  Some (<[i := callArg pName pt]> ps, <[i := declArg pName pt]> pts,
        (addDependency d t deps).1, (addDependency d t deps).2).
Proof.
  unfold addParam, paramTypeText, callArg, declArg. rewrite Nat.add_1_r.
  destruct (ins methType !! S i) as [t|]; [|done]. cbn [mbind option_bind].
  destruct (IsVariadic methType && _).
  - destruct (Elem t) as [e|]; [|done]. cbn [mbind option_bind].
    destruct (sanitized mi e) as [v isRC]. cbn [mbind option_bind fst snd].
    destruct (Params dParams !! i); [|done]. cbn [mbind option_bind].
    by destruct (addDependency d t deps).
  - cbn [mbind option_bind]. destruct (sanitized mi t) as [v isRC].
    destruct (Params dParams !! i); [|done]. cbn [mbind option_bind fst snd].
    by destruct (addDependency d t deps).
Qed.

Lemma addParams_texts mi methType dParams (n k : nat) :
  k <= n ->
  forall (d : modelData) (deps : gmap string bool) ps pts d' deps',
  forEach (addParam ModelsPath mi methType dParams) (seq 0 k)
          (replicate n "", replicate n "", d, deps) = Some (ps, pts, d', deps') ->
  exists tl : list (string * bool),
    length tl = k /\
    k <= length (Params dParams) /\
    (forall i, i < k ->
       exists t, ins methType !! S i = Some t /\
         tl !! i = ptText mi (IsVariadic methType && bool_decide (i + 2 = NumIn methType)) t) /\
    ps = zip_with callArg (Params dParams) tl ++ replicate (n - k) "" /\
    pts = zip_with declArg (Params dParams) tl ++ replicate (n - k) "".
Proof.
  induction k as [|k IH]; intros Hk d deps ps pts d' deps' Hrun.
  - injection Hrun as <- <- _ _. exists []. rewrite Nat.sub_0_r.
    split; [done|]. split; [simpl; lia|]. split; [intros; lia|].
    by rewrite !zip_with_nil_r.
  - rewrite seq_S, forEach_app in Hrun. simpl in Hrun.
    destruct (forEach _ (seq 0 k) _) as [[[[ps1 pts1] d1] deps1]|] eqn:Hk1; [|done].
    cbn [mbind option_bind] in Hrun.
    destruct (IH ltac:(lia) _ _ _ _ _ _ Hk1) as (tl & Hlen & Hnames & Hpoint & -> & ->).
    destruct (addParam _ _ _ _ _ k) as [st|] eqn:Hstep; [|done].
    simpl in Hrun. injection Hrun as ->.
    rewrite addParam_eq in Hstep.
    destruct (ins methType !! S k) as [t|] eqn:Ht; [|done].
    cbn [mbind option_bind] in Hstep.
    destruct (ptText mi _ t) as [pt|] eqn:Hpt; [|done].
    cbn [mbind option_bind] in Hstep.
    destruct (Params dParams !! k) as [pName|] eqn:Hname; [|done].
    cbn [mbind option_bind] in Hstep. injection Hstep as <- <- _ _.
    exists (tl ++ [pt]).
    split; [rewrite length_app; simpl; lia|].
    split; [apply lookup_lt_Some in Hname; lia|].
    split.
    { intros i Hi. destruct (decide (i = k)) as [->|Hne].
      - exists t. split; [done|]. rewrite Hpt.
        rewrite lookup_app_r by lia. by rewrite Hlen, Nat.sub_diag.
      - destruct (Hpoint i ltac:(lia)) as (t' & Ht' & Htl). exists t'. split; [done|].
        rewrite lookup_app_l by lia. done. }
    rewrite <- Hlen in Hname.
    rewrite !(zip_with_snoc _ _ _ _ _ Hname).
    assert (length (zip_with callArg (Params dParams) tl) = k) as Hl1
      by (rewrite length_zip_with; lia).
    assert (length (zip_with declArg (Params dParams) tl) = k) as Hl2
      by (rewrite length_zip_with; lia).
    replace (n - k) with (S (n - S k)) by lia.
    assert (forall (l : list string) y m, length l = k ->
              <[k := y]> (l ++ replicate (S m) "") = (l ++ [y]) ++ replicate m "")
      as Hins by (intros l y m <-; apply insert_next).
    by rewrite !Hins.
Qed.

Lemma addMethod_params reg mi astData (d d' : modelData) (deps deps' : gmap string bool)
    (entry : string * methodInfo) :
  addMethod ModelsPath reg mi astData (d, deps) entry = Some (d', deps') ->
  readBool specificMethods entry.1 = false ->
  exists md, Methods d' = Methods d ++ [md] /\ emitsP reg mi astData entry md.
Proof.
  destruct entry as [methodName methInfo]. unfold addMethod. cbn [fst snd].
  intros Hrun Hns. rewrite Hns in Hrun. revert Hrun.
  unfold NumIn. destruct (ins (methodType methInfo)) as [|recv rest] eqn:Hins; [done|].
  cbn [length].
  destruct (forEach _ (seq 0 (length rest)) _) as [[[[params paramsType] d1] deps1]|]
    eqn:Hloop; [|done].
  cbn [mbind option_bind].
  pose proof Hloop as Hd.
  eapply (addParams_spec _ _ _ (Deps d) deps) in Hd as (_ & _ & _ & HM1);
    [|apply tracked_start].
  simpl in HM1.
  apply addParams_texts in Hloop as (tl & Hlen & Hnames & Hpoint & -> & ->); [|done].
  rewrite Nat.sub_diag, !app_nil_r.
  assert (exists returns returnsIsRS d2 deps2,
            Methods d2 = Methods d1 /\
            match outs (methodType methInfo) with
            | [] => ("", false, d1, deps1)
            | out0 :: _ =>
                let '(r, isRS) := sanitized mi out0 in
                let '(d0, dp) := addDependency d1 out0 deps1 in (r, isRS, d0, dp)
            end = (returns, returnsIsRS, d2, deps2)) as (r & isRS & d2 & deps2 & HM2 & ->).
  { destruct (outs (methodType methInfo)) as [|out0 ?].
    { eexists _, _, _, _. split; [|reflexivity]. done. }
    destruct (sanitized mi out0) as [r isRS].
    destruct (addDependency d1 out0 deps1) as [d0 dp] eqn:Hadd.
    apply addDependency_spec in Hadd as (_ & _ & _ & _ & HM).
    eexists _, _, _, _. split; [|reflexivity]. done. }
  intros [= <- <-]. eexists. split; [simpl; by rewrite HM2, HM1|].
  exists tl. unfold NumIn in *. rewrite Hins in *.
  cbn [fst snd MParams MParamsWithType]. rewrite Hins. cbn [tail].
  split; [done|]. split; [done|]. split; [|done].
  intros i t Ht. pose proof (lookup_lt_Some _ _ _ Ht) as Hi.
  destruct (Hpoint i Hi) as (t' & Ht' & ->). simpl in Ht'.
  assert (t' = t) as -> by congruence.
  f_equal. f_equal. apply bool_decide_ext. cbn [length]. lia.
Qed.

Lemma addParam_is_Some mi methType dParams (st : sigState) (i : nat) :
  is_Some (addParam ModelsPath mi methType dParams st i) <->
  (exists t, ins methType !! S i = Some t /\
     is_Some (ptText mi (IsVariadic methType && bool_decide (i + 2 = NumIn methType)) t)) /\
  is_Some (Params dParams !! i).
Proof.
  destruct st as [[[ps pts] d] deps]. rewrite addParam_eq.
  destruct (ins methType !! S i) as [t|]; cbn [mbind option_bind].
  - destruct (ptText mi _ t) as [pt|] eqn:Hpt; cbn [mbind option_bind].
    + destruct (Params dParams !! i); cbn [mbind option_bind].
      * split; [intros _|by eexists]. split; [|by eexists].
        exists t. rewrite Hpt. split; [done|by eexists].
      * split; [by intros [? ?]|by intros [_ [? ?]]].
    + split; [by intros [? ?]|]. intros [(t' & [= <-] & Hs) _].
      rewrite Hpt in Hs. by destruct Hs.
  - split; [by intros [? ?]|]. by intros [(t' & ? & _) _].
Qed.

Lemma addMethod_is_Some reg mi astData (st : modelData * gmap string bool)
    (entry : string * methodInfo) :
  is_Some (addMethod ModelsPath reg mi astData st entry) <->
  readBool specificMethods entry.1 = true \/ generatable reg mi astData entry.
Proof.
  destruct st as [d deps]. destruct entry as [methodName methInfo].
  unfold addMethod, generatable. cbn [fst snd].
  destruct (readBool specificMethods methodName) eqn:Hs.
  { split; [by left|by eexists]. }
  set (dParams := lookupASTData reg mi astData methodName).
  set (methType := methodType methInfo).
  unfold NumIn. destruct (ins methType) as [|recv rest] eqn:Hins.
  { simpl. split; [by intros [? ?]|]. intros [?|[? _]]; [done|lia]. }
  cbn [length]. rewrite Nat.sub_succ, Nat.sub_0_r.
  assert (is_Some (forEach (addParam ModelsPath mi methType dParams) (seq 0 (length rest))
                     (replicate (length rest) "", replicate (length rest) "", d, deps)) <->
          forall i, i < length rest ->
            (exists t, ins methType !! S i = Some t /\
               is_Some (ptText mi (IsVariadic methType &&
                                   bool_decide (i + 2 = NumIn methType)) t)) /\
            is_Some (Params dParams !! i)) as Hloop.
  { split.
    - intros [st' Hrun] i Hi.
      destruct (forEach_Some_inv _ _ _ _ i Hrun) as [s1 Hs1]; [apply elem_of_seq; lia|].
      by apply addParam_is_Some in Hs1.
    - intros Hall. apply forEach_is_Some. intros i s' Hi. apply elem_of_seq in Hi.
      apply addParam_is_Some, Hall. lia. }
  assert (is_Some (forEach (addParam ModelsPath mi methType dParams) (seq 0 (length rest))
                     (replicate (length rest) "", replicate (length rest) "", d, deps)) <->
          is_Some ('(params, paramsType, mData1, deps1) ←
                     forEach (addParam ModelsPath mi methType dParams) (seq 0 (length rest))
                       (replicate (length rest) "", replicate (length rest) "", d, deps);
                   let '(returns, returnsIsRS, mData2, deps2) :=
                     match outs methType with
                     | [] => ("", false, mData1, deps1)
                     | out0 :: _ =>
                         let '(r, isRS) := sanitized mi out0 in
                         let '(d0, dp) := addDependency mData1 out0 deps1 in
                         (r, isRS, d0, dp)
                     end in
                   Some ({| Name := Name mData2; Deps := Deps mData2;
                            Fields := Fields mData2;
                            Methods := Methods mData2 ++
                              [{| MName := methodName; MDoc := doc methInfo;
                                  MParams := Join params ", ";
                                  MParamsWithType := Join paramsType ", ";
                                  MReturns := returns; MReturnsIsRS := returnsIsRS |}] |},
                         deps2))) as <-.
  { destruct (forEach _ _ _) as [[[[ps pts] d1] deps1]|]; cbn [mbind option_bind].
    - split; [intros _|by eexists].
      destruct (outs methType) as [|out0 ?]; [by eexists|].
      destruct (sanitized mi out0), (addDependency d1 out0 deps1). by eexists.
    - done. }
  rewrite Hloop. clear Hloop. unfold NumIn. rewrite Hins. cbn [length].
  split.
  - intros Hall. right. split; [lia|]. split.
    + destruct (decide (length rest <= length (Params dParams))) as [|Hlt]; [done|].
      destruct (Hall (length (Params dParams))) as [_ [x Hx]]; [lia|].
      apply lookup_lt_Some in Hx. lia.
    + intros Hv Hn. cbn [length] in Hn.
      destruct (Hall (length rest - 1)) as [(t & Ht & e & He) _]; [lia|].
      rewrite Hv, bool_decide_true in He by lia. simpl in He.
      exists t. unfold paramTypeText in He.
      destruct (Elem t) as [e0|] eqn:HE; [|done].
      exists e0. split; [|done]. rewrite last_lookup. cbn [length pred].
      rewrite <- Ht. f_equal. lia.
  - intros [?|(Hrecv & Hnames & Hvar)]; [done|]. intros i Hi. split.
    + destruct (lookup_lt_is_Some_2 (recv :: rest) (S i)) as [t Ht]; [simpl; lia|].
      exists t. split; [done|]. unfold paramTypeText.
      destruct (IsVariadic methType) eqn:Hv; [|by eexists]. simpl.
      destruct (bool_decide (i + 2 = S (length rest))) eqn:Hlast; [|by eexists].
      apply bool_decide_eq_true in Hlast.
      destruct (Hvar eq_refl ltac:(lia)) as (t' & e & Hl & He).
      rewrite last_lookup in Hl. simpl in Hl.
      replace (length rest) with (S i) in Hl by lia.
      assert (t' = t) as -> by congruence. rewrite He. by eexists.
    + apply lookup_lt_is_Some_2. lia.
Qed.

Lemma addMethods_params reg mi astData (l : list (string * methodInfo)) :
  forall (d d' : modelData) (deps deps' : gmap string bool),
  forEach (addMethod ModelsPath reg mi astData) l (d, deps) = Some (d', deps') ->
  exists mds, Methods d' = Methods d ++ mds /\
    Forall2 (emitsP reg mi astData)
      (filter (fun e => readBool specificMethods e.1 = false) l) mds.
Proof.
  induction l as [|entry l IH]; intros d d' deps deps' Hloop; cbn [forEach] in Hloop.
  - injection Hloop as <- <-. exists []. rewrite app_nil_r. split; [done|]. constructor.
  - destruct (addMethod ModelsPath reg mi astData (d, deps) entry)
      as [[d1 deps1]|] eqn:Hadd; [|done]. simpl in Hloop.
    destruct (IH _ _ _ _ Hloop) as (mds & HM & Hmds).
    rewrite filter_cons.
    destruct (decide (readBool specificMethods entry.1 = false)) as [Hns|Hs].
    + destruct (addMethod_params _ _ _ _ _ _ _ _ Hadd Hns) as (md & HM1 & Hmd).
      exists (md :: mds). split; [by rewrite HM, HM1, <- app_assoc|]. by constructor.
    + exists mds. split; [|done]. rewrite HM. f_equal.
      destruct entry as [methodName methInfo]. unfold addMethod in Hadd.
      simpl in Hs. destruct (readBool specificMethods methodName); [|done].
      by injection Hadd as <- _.
Qed.

End Loops.

Section Files.

Variable PoolPath ModelsPath : string.
Variable range : forall V : Type, gmap string V -> list (string * V).
Hypothesis range_perm : forall (V : Type) (m : gmap string V),
  range V m ≡ₚ map_to_list m.

Local Abbreviation RCType := (RecordCollectionType ModelsPath).
Local Abbreviation sanitized := (sanitizedFieldType ModelsPath).
Local Abbreviation genFile := (generateModelPoolFile PoolPath ModelsPath range).
Local Abbreviation emitsF := (emitsField ModelsPath).
Local Abbreviation emitsM := (emitsMethod ModelsPath).
Local Abbreviation seen := (typesSeen range).
Local Abbreviation emitsP := (emitsParams ModelsPath).

(** *** The data of a generated file *)

(** What [generateModelPoolFile] hands to the template when it does
    not panic. *)
Lemma generateModelPoolFile_spec reg mi fileName astData file mData :
  genFile reg mi fileName astData = Some (file, mData) ->
  file = fileName /\
  Name mData = name mi /\
  Deps mData = ModelsPath ::
    firstOccurrences
      (filter (fun p => p <> "" /\ p <> PoolPath) (map depPath (seen mi))) /\
  Forall2 (emitsF mi) (range _ (fields mi)) (Fields mData) /\
  Forall2 (emitsM mi)
    (filter (fun e => readBool specificMethods e.1 = false) (range _ (methods mi)))
    (Methods mData).
Proof.
  clear range_perm.
  unfold generateModelPoolFile, addFieldsToModelData, addMethodsToModelData.
  destruct (fold_left _ _ _) as [d1 deps1] eqn:Hfields.
  destruct (forEach _ _ _) as [[d2 deps2]|] eqn:Hmethods; [|done].
  simpl. intros [= <- <-]. split; [done|].
  eapply addFields_spec in Hfields as (Htr1 & HN1 & HM1 & fds & HF1 & Hfds);
    [|apply tracked_start].
  eapply addMethods_spec in Hmethods as (Htr2 & HN2 & HF2 & mds & HM2 & Hmds);
    [|exact Htr1].
  simpl in *. destruct Htr2 as [HD _].
  split; [congruence|]. split; [|split].
  - rewrite HD. simpl. f_equal. f_equal. unfold typesSeen.
    apply list_filter_iff. intros p. unfold unlisted.
    rewrite readBool_insert. unfold readBool at 1. rewrite lookup_empty. simpl.
    rewrite orb_false_r, bool_decide_eq_false. intuition congruence.
  - by rewrite HF2, HF1.
  - by rewrite HM2, HM1.
Qed.

(** X12.  Only the first names recovered for a method are read, as
    many as it has parameters after the receiver: two tables of names
    that agree on them generate the same file. *)
Lemma surplus_names_ignored reg mi fileName astData astData' :
  (forall methodName methInfo,
     methods mi !! methodName = Some methInfo ->
     take (NumIn (methodType methInfo) - 1)
          (Params (lookupASTData reg mi astData methodName)) =
     take (NumIn (methodType methInfo) - 1)
          (Params (lookupASTData reg mi astData' methodName))) ->
  genFile reg mi fileName astData = genFile reg mi fileName astData'.
Proof.
  intros Hagree. unfold generateModelPoolFile, addMethodsToModelData.
  destruct (addFieldsToModelData _ _ _ _ _) as [d1 deps1].
  rewrite (forEach_ext (addMethod ModelsPath reg mi astData)
                       (addMethod ModelsPath reg mi astData')); [done|].
  intros [d deps] [methodName methInfo] Hin.
  apply (range_elem_of range range_perm) in Hin.
  specialize (Hagree methodName methInfo Hin).
  unfold addMethod. destruct (readBool specificMethods methodName); [done|].
  destruct (NumIn (methodType methInfo)) as [|n]; [done|].
  rewrite Nat.sub_succ, Nat.sub_0_r in Hagree.
  rewrite (forEach_ext
             (addParam ModelsPath mi (methodType methInfo)
                (lookupASTData reg mi astData methodName))
             (addParam ModelsPath mi (methodType methInfo)
                (lookupASTData reg mi astData' methodName))); [done|].
  intros [[[params paramsType] d'] deps'] i Hi. apply elem_of_seq in Hi.
  unfold addParam.
  rewrite <- (lookup_take_lt (Params (lookupASTData reg mi astData methodName)) n i)
    by lia.
  rewrite <- (lookup_take_lt (Params (lookupASTData reg mi astData' methodName)) n i)
    by lia.
  by rewrite Hagree.
Qed.

(** C7.  In the data of a generated file no wrapper entry bears the
    name [Create], [First] or [All], and every other method of the
    model has exactly one entry. *)
Theorem specific_methods_skipped reg mi fileName astData file mData :
  genFile reg mi fileName astData = Some (file, mData) ->
  forall methodName : string,
    length (filter (fun md => MName md = methodName) (Methods mData)) =
    if decide (methodName ∈ ["Create"; "First"; "All"]) then 0
    else if decide (is_Some (methods mi !! methodName)) then 1 else 0.
Proof.
  intros Hgen methodName.
  apply generateModelPoolFile_spec in Hgen as (_ & _ & _ & _ & Hmethods).
  pose proof (NoDup_fst_filter (fun e => readBool specificMethods e.1 = false)
                _ (range_NoDup range range_perm (methods mi))) as Hnd.
  destruct (decide (methodName ∈ ["Create"; "First"; "All"])) as [Hs|Hs].
  - rewrite (no_entry _ _ (emitsMethod_key ModelsPath mi) _ _ _ Hmethods); [done|].
    rewrite map_fmap, list_elem_of_fmap. intros ([n v] & -> & Hin).
    apply list_elem_of_filter in Hin as [Hns _]. simpl in *.
    apply specificMethods_spec in Hs. congruence.
  - assert (readBool specificMethods methodName = false) as Hns.
    { rewrite <- specificMethods_spec in Hs. by destruct (readBool _ _). }
    destruct (decide (is_Some (methods mi !! methodName))) as [[v Hv]|Hno].
    + destruct (one_entry _ _ (emitsMethod_key ModelsPath mi) _ _ methodName v Hmethods Hnd)
        as (md & -> & _); [|done].
      apply list_elem_of_filter. split; [done|]. by apply (range_elem_of range range_perm).
    + rewrite (no_entry _ _ (emitsMethod_key ModelsPath mi) _ _ _ Hmethods); [done|].
      rewrite map_fmap, list_elem_of_fmap. intros ([n v] & -> & Hin).
      apply list_elem_of_filter in Hin as [_ Hin]. apply (range_elem_of range range_perm) in Hin.
      apply Hno. by exists v.
Qed.

(** C1.  A relation field, and a field of the reflected type
    [RecordCollection], is emitted under the name of a set: the set
    of its related model for a relation field, the set of the model
    being generated for any other.  The first result of a method, of
    the reflected type [RecordCollection], is emitted as the set of
    the model being generated, the model the method works on.  None
    of them is emitted as [models.RecordCollection]: each ends with
    [Set].  (The name of the set of the model being generated goes
    through the replacement of [pool.]; it is the name of the model
    followed by [Set] for a model name without [pool.].) *)
Theorem recordset_types_rewrapped reg mi fileName astData file mData :
  genFile reg mi fileName astData = Some (file, mData) ->
  (forall fieldName fi,
     fields mi !! fieldName = Some fi ->
     isRelationField fi = true \/ structFieldType fi = RCType ->
     exists fd,
       filter (fun fd => FName fd = fieldName) (Fields mData) = [fd] /\
       FType fd = (if isRelationField fi then relatedModelName fi +:+ "Set"
                   else Replace1 (name mi +:+ "Set") "pool." "") /\
       ends_with "Set" (FType fd) /\
       FType fd <> "models.RecordCollection") /\
  (forall methodName methInfo outs',
     methods mi !! methodName = Some methInfo ->
     readBool specificMethods methodName = false ->
     outs (methodType methInfo) = RCType :: outs' ->
     exists md,
       filter (fun md => MName md = methodName) (Methods mData) = [md] /\
       MReturns md = Replace1 (name mi +:+ "Set") "pool." "" /\
       ends_with "Set" (MReturns md) /\
       MReturns md <> "models.RecordCollection") /\
  (contains "pool." (name mi) = false ->
     Replace1 (name mi +:+ "Set") "pool." "" = name mi +:+ "Set").
Proof.
  intros Hgen.
  apply generateModelPoolFile_spec in Hgen as (_ & _ & _ & Hfields & Hmethods).
  split; [|split].
  - intros fieldName fi Hfi Hkind.
    destruct (one_entry _ _ (emitsField_key ModelsPath mi) _ _ fieldName fi Hfields
                (range_NoDup range range_perm _)) as (fd & Hfd & _ & Htype);
      [by apply (range_elem_of range range_perm)|].
    exists fd. split; [done|]. simpl in Htype.
    destruct (isRelationField fi).
    + injection Htype as -> _. split; [done|].
      assert (ends_with "Set" (relatedModelName fi +:+ "Set")) by by eexists.
      split; [done|]. by apply ends_with_Set_not_raw.
    + injection Htype as -> _. destruct Hkind as [?| ->]; [done|].
      rewrite sanitized_RecordCollection. simpl. split; [done|].
      split; [apply Replace1_pool_ends_with_Set|].
      apply ends_with_Set_not_raw, Replace1_pool_ends_with_Set.
  - intros methodName methInfo outs' Hmeth Hns Houts.
    destruct (one_entry _ _ (emitsMethod_key ModelsPath mi) _ _ methodName methInfo
                Hmethods (NoDup_fst_filter _ _ (range_NoDup range range_perm _)))
      as (md & Hmd & _ & _ & Hret).
    { apply list_elem_of_filter. split; [done|]. by apply (range_elem_of range range_perm). }
    exists md. split; [done|]. simpl in Hret.
    rewrite Houts, sanitized_RecordCollection in Hret. injection Hret as -> _.
    split; [done|].
    split; [apply Replace1_pool_ends_with_Set|].
    apply ends_with_Set_not_raw, Replace1_pool_ends_with_Set.
  - intros Hno. by apply Replace1_absent, contains_pool_before_Set.
Qed.

(** C5, as amended.  Apart from the path of package [models], which
    heads the list, the import list of a generated file holds the
    package paths of the types resolved for the model, pointers
    stripped, in the order of their first occurrence: each path once,
    and neither the empty path of a built-in type nor the path of the
    generated package, which is marked as imported from the start. *)
Theorem dependencies_listed_once reg mi fileName astData file mData :
  genFile reg mi fileName astData = Some (file, mData) ->
  head (Deps mData) = Some ModelsPath /\
  filter (fun p => p <> ModelsPath) (Deps mData) =
    firstOccurrences
      (filter (fun p => p <> "" /\ p <> PoolPath /\ p <> ModelsPath)
              (map depPath (seen mi))) /\
  (forall p : string,
     p <> ModelsPath ->
     length (filter (fun q => q = p) (Deps mData)) =
     if decide (p <> "" /\ p <> PoolPath /\ p ∈ map depPath (seen mi)) then 1 else 0).
Proof.
  clear range_perm.
  intros Hgen.
  apply generateModelPoolFile_spec in Hgen as (_ & _ & HD & _).
  rewrite HD. split; [done|]. split.
  - rewrite filter_cons_False by tauto.
    rewrite <- firstOccurrences_filter, list_filter_filter.
    f_equal. apply list_filter_iff. tauto.
  - intros p Hp. rewrite filter_cons_False by congruence.
    rewrite NoDup_occurrences by apply NoDup_firstOccurrences.
    apply decide_ext. rewrite elem_of_firstOccurrences, list_elem_of_filter. tauto.
Qed.

Lemma generateModelPoolFile_methods reg mi fileName astData file mData :
  genFile reg mi fileName astData = Some (file, mData) ->
  Forall2 (fun e md => emitsM mi e md /\ emitsP reg mi astData e md)
    (filter (fun e => readBool specificMethods e.1 = false) (range _ (methods mi)))
    (Methods mData).
Proof.
  intros Hgen. apply Forall2_and.
  { by apply generateModelPoolFile_spec in Hgen as (_ & _ & _ & _ & ?). }
  revert Hgen. unfold generateModelPoolFile, addFieldsToModelData, addMethodsToModelData.
  destruct (fold_left _ _ _) as [d1 deps1] eqn:Hfields.
  destruct (forEach _ _ _) as [[d2 deps2]|] eqn:Hmethods; [|done].
  simpl. intros [= <- <-].
  eapply addFields_spec in Hfields as (_ & _ & HM1 & _); [|apply tracked_start].
  apply addMethods_params in Hmethods as (mds & HM2 & Hmds).
  simpl in HM1. rewrite HM1 in HM2. simpl in HM2. by rewrite HM2.
Qed.

Lemma generateModelPoolFile_is_Some reg mi fileName astData :
  is_Some (genFile reg mi fileName astData) <->
  forall e, e ∈ range _ (methods mi) ->
    readBool specificMethods e.1 = true \/ generatable reg mi astData e.
Proof.
  unfold generateModelPoolFile, addMethodsToModelData.
  destruct (addFieldsToModelData _ _ _ _ _) as [d1 deps1].
  split.
  - intros Hsome e He.
    destruct (forEach _ _ _) as [[d2 deps2]|] eqn:Hrun; [|by destruct Hsome].
    destruct (forEach_Some_inv _ _ _ _ e Hrun He) as [s1 Hs1].
    by apply addMethod_is_Some in Hs1.
  - intros Hall.
    destruct (forEach_is_Some (addMethod ModelsPath reg mi astData)
                (range _ (methods mi)) (d1, deps1)) as [[d2 deps2] ->]; [|by eexists].
    intros e s' He. apply addMethod_is_Some. by apply Hall.
Qed.

(** *** More on the data of a generated file *)

Lemma keys_of_entries {V B : Type} (R : string * V -> B -> Prop) (key : B -> string)
    (l : list (string * V)) (bs : list B) :
  (forall e b, R e b -> key b = e.1) -> Forall2 R l bs -> map key bs = map fst l.
Proof.
  intros Hkey. induction 1 as [|e b l bs HR _ IH]; [done|].
  simpl. by rewrite IH, (Hkey e b HR).
Qed.

(** X13.  The path of package [models] stands once in the import
    list of a generated file when no resolved type belongs to that
    package, and twice when one does: the list starts with the path,
    which is not marked as imported. *)
Theorem models_path_listed_again reg mi fileName astData file mData :
  genFile reg mi fileName astData = Some (file, mData) ->
  length (filter (fun p => p = ModelsPath) (Deps mData)) =
  if decide (ModelsPath <> "" /\ ModelsPath <> PoolPath /\
             ModelsPath ∈ map depPath (seen mi))
  then 2 else 1.
Proof.
  clear range_perm.
  intros Hgen. apply generateModelPoolFile_spec in Hgen as (_ & _ & -> & _).
  rewrite filter_cons_True by done. cbn [length].
  rewrite NoDup_occurrences by apply NoDup_firstOccurrences.
  assert (ModelsPath ∈ firstOccurrences
            (filter (fun p => p <> "" /\ p <> PoolPath) (map depPath (seen mi))) <->
          ModelsPath <> "" /\ ModelsPath <> PoolPath /\
          ModelsPath ∈ map depPath (seen mi)) as Hiff
    by (rewrite elem_of_firstOccurrences, list_elem_of_filter; tauto).
  destruct (decide (ModelsPath ∈ firstOccurrences _)) as [Hin|Hout].
  - by rewrite decide_True by by apply Hiff.
  - by rewrite decide_False by by rewrite <- Hiff.
Qed.

(** X14.  The data of a generated file holds one entry for each field
    of the model and no other: as many entries as fields, no name
    twice, and each entry bears the name of a field, the relation
    flag of that field as its recordset flag, and as its type the set
    of the related model for a relation field, the emitted name of
    the reflected type for any other. *)
Theorem field_entries reg mi fileName astData file mData :
  genFile reg mi fileName astData = Some (file, mData) ->
  length (Fields mData) = size (fields mi) /\
  NoDup (map FName (Fields mData)) /\
  (forall fd, fd ∈ Fields mData ->
     exists fi,
       fields mi !! FName fd = Some fi /\
       FTypeIsRS fd = isRelationField fi /\
       FType fd = if isRelationField fi then relatedModelName fi +:+ "Set"
                  else (sanitized mi (structFieldType fi)).1).
Proof.
  intros Hgen. apply generateModelPoolFile_spec in Hgen as (_ & _ & _ & Hfields & _).
  split; [|split].
  - by rewrite <- (Forall2_length _ _ _ Hfields), range_perm, length_map_to_list.
  - rewrite (keys_of_entries _ _ _ _ (emitsField_key ModelsPath mi) Hfields).
    apply (range_NoDup range range_perm).
  - intros fd Hfd. apply list_elem_of_lookup in Hfd as [i Hi].
    destruct (Forall2_lookup_r _ _ _ _ _ Hfields Hi) as ([n fi] & He & Hname & Htype).
    apply list_elem_of_lookup_2, (range_elem_of range range_perm) in He.
    simpl in *. exists fi. rewrite Hname. split; [done|].
    destruct (isRelationField fi); by injection Htype as -> ->.
Qed.

(** X15.  The wrapper of a method that has no template of its own
    takes its parameters from the method's after the receiver, paired
    from the first with the names recovered for the method: it
    declares each by its name and the emitted name of its type, [...]
    before the type of the elements for the variadic parameter, and
    passes each on by its name, followed by [.RecordCollection] when
    the type is flagged as a recordset; both lists are joined by a
    comma and a space. *)
Theorem wrapper_parameters reg mi fileName astData file mData methodName methInfo :
  genFile reg mi fileName astData = Some (file, mData) ->
  methods mi !! methodName = Some methInfo ->
  readBool specificMethods methodName = false ->
  exists md (pts : list (string * bool)),
    filter (fun md => MName md = methodName) (Methods mData) = [md] /\
    length pts = NumIn (methodType methInfo) - 1 /\
    (forall i t, ins (methodType methInfo) !! S i = Some t ->
       pts !! i =
       paramTypeText ModelsPath mi
         (IsVariadic (methodType methInfo) &&
          bool_decide (i + 2 = NumIn (methodType methInfo))) t) /\
    MParams md =
      Join (zip_with callArg (Params (lookupASTData reg mi astData methodName)) pts) ", " /\
    MParamsWithType md =
      Join (zip_with declArg (Params (lookupASTData reg mi astData methodName)) pts) ", ".
Proof.
  intros Hgen Hmeth Hns.
  apply generateModelPoolFile_methods in Hgen.
  destruct (one_entry
              (fun e md => emitsM mi e md /\ emitsP reg mi astData e md) MName
              (fun e md H => emitsMethod_key ModelsPath mi e md (proj1 H))
              _ _ methodName methInfo Hgen
              (NoDup_fst_filter _ _ (range_NoDup range range_perm _)))
    as (md & Hmd & _ & pts & Hlen & _ & Hpoint & Hcall & Hdecl).
  { apply list_elem_of_filter. split; [done|]. by apply (range_elem_of range range_perm). }
  cbn [fst snd] in *. exists md, pts. split; [done|].
  unfold NumIn. destruct (ins (methodType methInfo)) as [|recv rest].
  { split; [done|]. split; [by intros i t|]. done. }
  cbn [tail length] in *. rewrite Nat.sub_succ, Nat.sub_0_r.
  split; [done|]. split; [|done].
  intros i t Ht. rewrite (Hpoint i t Ht). f_equal. f_equal.
  apply bool_decide_ext. lia.
Qed.

(** X16.  The wrapper of a method that has no template of its own
    bears the doc string of the method descriptor, not the one
    recovered from the sources, and returns what the emitted name of
    the first result of the method says, flagged as a recordset or
    not; the further results are dropped, and a method without result
    has a wrapper without result. *)
Theorem wrapper_result reg mi fileName astData file mData methodName methInfo :
  genFile reg mi fileName astData = Some (file, mData) ->
  methods mi !! methodName = Some methInfo ->
  readBool specificMethods methodName = false ->
  exists md,
    filter (fun md => MName md = methodName) (Methods mData) = [md] /\
    MDoc md = doc methInfo /\
    (outs (methodType methInfo) = [] -> MReturns md = "" /\ MReturnsIsRS md = false) /\
    (forall out0 outs', outs (methodType methInfo) = out0 :: outs' ->
       (MReturns md, MReturnsIsRS md) = sanitized mi out0).
Proof.
  intros Hgen Hmeth Hns.
  apply generateModelPoolFile_spec in Hgen as (_ & _ & _ & _ & Hmethods).
  destruct (one_entry _ _ (emitsMethod_key ModelsPath mi) _ _ methodName methInfo
              Hmethods (NoDup_fst_filter _ _ (range_NoDup range range_perm _)))
    as (md & Hmd & _ & Hdoc & Hret).
  { apply list_elem_of_filter. split; [done|]. by apply (range_elem_of range range_perm). }
  exists md. split; [done|]. split; [done|]. simpl in Hret. split.
  - intros Houts. rewrite Houts in Hret. by injection Hret as -> ->.
  - intros out0 outs' Houts. by rewrite Houts in Hret.
Qed.

(** X17.  The loop over the methods of a model ends without a panic,
    whatever the data and the marks it starts from, exactly when each
    method of the model that has no template of its own has a
    receiver, a recovered name for each parameter after the receiver
    and, when it is variadic, a last parameter whose type has
    elements. *)
Theorem method_data_built_iff reg mi astData (mData : modelData)
    (deps : gmap string bool) :
  is_Some (addMethodsToModelData ModelsPath range reg mData mi astData deps) <->
  forall methodName methInfo,
    methods mi !! methodName = Some methInfo ->
    readBool specificMethods methodName = false ->
    0 < NumIn (methodType methInfo) /\
    NumIn (methodType methInfo) - 1
      <= length (Params (lookupASTData reg mi astData methodName)) /\
    (IsVariadic (methodType methInfo) = true -> 2 <= NumIn (methodType methInfo) ->
       exists t e, last (ins (methodType methInfo)) = Some t /\ Elem t = Some e).
Proof.
  unfold addMethodsToModelData. split.
  - intros [st Hrun] methodName methInfo Hmeth Hns.
    destruct (forEach_Some_inv _ _ _ _ (methodName, methInfo) Hrun) as [s1 Hs1];
      [by apply (range_elem_of range range_perm)|].
    apply addMethod_is_Some in Hs1 as [Hs|Hg]; [simpl in Hs; congruence|exact Hg].
  - intros Hall. apply forEach_is_Some.
    intros [methodName methInfo] s' He. apply (range_elem_of range range_perm) in He.
    apply addMethod_is_Some. simpl.
    destruct (readBool specificMethods methodName) eqn:Hs; [by left|].
    right. by apply Hall.
Qed.

(** X18.  The package of the elements of a slice is not imported
    for the slice: a field whose type is a slice of a named type is
    emitted under the printed name of the slice, the qualifier of the
    element type in it, while the path of that package is absent from
    the import list unless another resolved type brings it. *)
Theorem slice_elements_not_imported reg mi fileName astData file mData
    fieldName fi (p s : string) :
  genFile reg mi fileName astData = Some (file, mData) ->
  fields mi !! fieldName = Some fi ->
  isRelationField fi = false ->
  structFieldType fi = TSlice (TBase p s) ->
  p <> ModelsPath ->
  p ∉ map depPath (seen mi) ->
  exists fd,
    filter (fun fd => FName fd = fieldName) (Fields mData) = [fd] /\
    FType fd = "[]" +:+ Replace1 s "pool." "" /\
    p ∉ Deps mData.
Proof.
  intros Hgen Hfi Hrel Htyp Hp Hnot.
  apply generateModelPoolFile_spec in Hgen as (_ & _ & HD & Hfields & _).
  destruct (one_entry _ _ (emitsField_key ModelsPath mi) _ _ fieldName fi Hfields
              (range_NoDup range range_perm _)) as (fd & Hfd & _ & Htype);
    [by apply (range_elem_of range range_perm)|].
  exists fd. split; [done|]. simpl in Htype. rewrite Hrel, Htyp in Htype.
  injection Htype as -> _. split.
  - reflexivity.
  - rewrite HD, not_elem_of_cons. split; [done|].
    rewrite elem_of_firstOccurrences, list_elem_of_filter. tauto.
Qed.

End Files.

Section Pool.

Variable PoolPath ModelsPath : string.
Variable range : forall V : Type, gmap string V -> list (string * V).
Hypothesis range_perm : forall (V : Type) (m : gmap string V),
  range V m ≡ₚ map_to_list m.
Variable ToLower : string -> string.
Variable pathJoin : string -> string -> string.
Variable createModelLinks inflateMixIns inflateEmbeddings generateMethodsDoc :
  modelCollection -> option modelCollection.

Local Abbreviation genFile := (generateModelPoolFile PoolPath ModelsPath range).

(** The files of a run and the models they were generated for. *)
Lemma poolLoop_spec reg dir astData (todo : list (string * modelInfo)) :
  forall written,
  match poolLoop PoolPath ModelsPath range ToLower pathJoin reg dir astData todo written with
  | Completed files =>
      exists new, files = written ++ new /\
        Forall2 (fun e w =>
                   genFile reg e.2 (pathJoin dir (ToLower e.1 +:+ ".go")) astData = Some w)
                todo new
  | Panicked files =>
      exists visited e rest new,
        todo = visited ++ e :: rest /\ files = written ++ new /\
        Forall2 (fun e w =>
                   genFile reg e.2 (pathJoin dir (ToLower e.1 +:+ ".go")) astData = Some w)
                visited new /\
        genFile reg e.2 (pathJoin dir (ToLower e.1 +:+ ".go")) astData = None
  end.
Proof.
  clear range_perm createModelLinks inflateMixIns inflateEmbeddings generateMethodsDoc.
  induction todo as [|[modelName mi] todo IH]; intros written; cbn [poolLoop].
  - exists []. by rewrite app_nil_r.
  - destruct (genFile reg mi _ astData) as [w|] eqn:Hgen.
    + specialize (IH (written ++ [w])).
      destruct (poolLoop _ _ _ _ _ _ _ _ todo _) as [files|files].
      * destruct IH as (new & -> & Hall). exists (w :: new).
        split; [by rewrite <- app_assoc|]. by constructor.
      * destruct IH as (visited & e & rest & new & -> & -> & Hall & Hfail).
        exists ((modelName, mi) :: visited), e, rest, (w :: new).
        split; [done|]. split; [by rewrite <- app_assoc|]. split; [|done].
        by constructor.
    + exists [], (modelName, mi), todo, []. by rewrite app_nil_r.
Qed.

(** C2, as amended.  When the names recovered for a method that has
    no template of its own are fewer than its parameters after the
    receiver, the generation of the model panics, whatever the file:
    the run ends in a panic, and every file it wrote is the file of a
    model that was generated without one. *)
Theorem short_name_list_panics reg mi astData methodName methInfo :
  methods mi !! methodName = Some methInfo ->
  readBool specificMethods methodName = false ->
  length (Params (lookupASTData reg mi astData methodName))
    < NumIn (methodType methInfo) - 1 ->
  (forall fileName, genFile reg mi fileName astData = None) /\
  (forall reg0 dir modelName,
     simulateBootstrap createModelLinks inflateMixIns inflateEmbeddings
       generateMethodsDoc reg0 = Some reg ->
     registryByName reg !! modelName = Some mi ->
     exists files,
       GeneratePool PoolPath ModelsPath range ToLower pathJoin createModelLinks
         inflateMixIns inflateEmbeddings generateMethodsDoc reg0 dir astData
       = Panicked files /\
       forall w, w ∈ files ->
         exists modelName' mi',
           registryByName reg !! modelName' = Some mi' /\
           genFile reg mi' (pathJoin dir (ToLower modelName' +:+ ".go")) astData
           = Some w).
Proof.
  intros Hmeth Hns Hshort.
  assert (forall fileName, genFile reg mi fileName astData = None) as Hnone.
  { intros fileName. unfold generateModelPoolFile, addMethodsToModelData.
    destruct (addFieldsToModelData _ _ _ _ _) as [d1 deps1].
    rewrite (forEach_panics _ _ (methodName, methInfo)); [done|..].
    - by apply (range_elem_of range range_perm).
    - intros st. by apply addMethod_short_list. }
  split; [done|].
  intros reg0 dir modelName Hboot Hmi. unfold GeneratePool. rewrite Hboot.
  pose proof (poolLoop_spec reg dir astData (range _ (registryByName reg)) []) as Hloop.
  destruct (poolLoop _ _ _ _ _ _ _ _ _ _) as [files|files].
  - destruct Hloop as (new & -> & Hall). exfalso.
    assert ((modelName, mi) ∈ range _ (registryByName reg)) as Hin
      by by apply (range_elem_of range range_perm).
    apply list_elem_of_lookup in Hin as [i Hi].
    destruct (Forall2_lookup_l _ _ _ _ _ Hall Hi) as (w & _ & Hw).
    simpl in Hw. by rewrite Hnone in Hw.
  - destruct Hloop as (visited & e & rest & new & Htodo & -> & Hall & _).
    exists new. split; [done|]. simpl. intros w Hw.
    apply list_elem_of_lookup in Hw as [i Hi].
    destruct (Forall2_lookup_r _ _ _ _ _ Hall Hi) as ([n' mi'] & Hv & Hgen).
    exists n', mi'. split; [|done].
    apply (range_elem_of range range_perm). rewrite Htodo. apply elem_of_app. left.
    by eapply list_elem_of_lookup_2.
Qed.

(** C9.  A run that completes has written one file for each model of
    the registry, visited in some order: the file is named by the
    directory joined with the lower-cased name of the model followed
    by [.go], and holds the data generated for the model. *)
Theorem one_file_per_model reg0 dir astData files :
  GeneratePool PoolPath ModelsPath range ToLower pathJoin createModelLinks
    inflateMixIns inflateEmbeddings generateMethodsDoc reg0 dir astData
  = Completed files ->
  exists reg visited,
    simulateBootstrap createModelLinks inflateMixIns inflateEmbeddings
      generateMethodsDoc reg0 = Some reg /\
    visited ≡ₚ map_to_list (registryByName reg) /\
    length files = size (registryByName reg) /\
    Forall2 (fun e w =>
               w.1 = pathJoin dir (ToLower e.1 +:+ ".go") /\
               genFile reg e.2 w.1 astData = Some w)
            visited files.
Proof.
  unfold GeneratePool.
  destruct (simulateBootstrap _ _ _ _ reg0) as [reg|] eqn:Hboot; [|done].
  intros Hrun. exists reg, (range _ (registryByName reg)).
  split; [done|]. split; [apply range_perm|].
  pose proof (poolLoop_spec reg dir astData (range _ (registryByName reg)) []) as Hloop.
  rewrite Hrun in Hloop. destruct Hloop as (new & -> & Hall). simpl.
  split.
  { by rewrite <- (Forall2_length _ _ _ Hall), range_perm, length_map_to_list. }
  eapply Forall2_impl; [exact Hall|].
  intros [modelName mi] [file mData] Hgen. simpl in *.
  assert (file = pathJoin dir (ToLower modelName +:+ ".go")) as ->; [|done].
  unfold generateModelPoolFile in Hgen.
  destruct (addFieldsToModelData _ _ _ _ _) as [d1 deps1].
  destruct (addMethodsToModelData _ _ _ _ _ _ _) as [[d2 deps2]|]; [|done].
  by injection Hgen as <- _.
Qed.

(** *** More on a run of the generator *)

(** X19.  A run whose bootstrap fails writes no file.  A run
    completes exactly when its bootstrap succeeds and the file of
    every model of the registry it leaves can be generated. *)
Theorem GeneratePool_completes_iff reg0 dir astData :
  (simulateBootstrap createModelLinks inflateMixIns inflateEmbeddings
     generateMethodsDoc reg0 = None ->
   GeneratePool PoolPath ModelsPath range ToLower pathJoin createModelLinks
     inflateMixIns inflateEmbeddings generateMethodsDoc reg0 dir astData
   = Panicked []) /\
  ((exists files,
      GeneratePool PoolPath ModelsPath range ToLower pathJoin createModelLinks
        inflateMixIns inflateEmbeddings generateMethodsDoc reg0 dir astData
      = Completed files) <->
   exists reg,
     simulateBootstrap createModelLinks inflateMixIns inflateEmbeddings
       generateMethodsDoc reg0 = Some reg /\
     forall modelName mi,
       registryByName reg !! modelName = Some mi ->
       is_Some (genFile reg mi (pathJoin dir (ToLower modelName +:+ ".go")) astData)).
Proof.
  unfold GeneratePool.
  destruct (simulateBootstrap _ _ _ _ reg0) as [reg|] eqn:Hboot.
  2: { split; [done|]. split; [by intros [? ?]|by intros (? & ? & _)]. }
  split; [done|].
  pose proof (poolLoop_spec reg dir astData (range _ (registryByName reg)) []) as Hloop.
  destruct (poolLoop _ _ _ _ _ _ _ _ _ _) as [files|files].
  - destruct Hloop as (new & -> & Hall). split; [intros _|by eexists].
    exists reg. split; [done|]. intros modelName mi Hmi.
    apply (range_elem_of range range_perm), list_elem_of_lookup in Hmi as [i Hi].
    destruct (Forall2_lookup_l _ _ _ _ _ Hall Hi) as (w & _ & Hw). by exists w.
  - destruct Hloop as (visited & [n mi] & rest & new & Htodo & _ & _ & Hfail).
    split; [by intros [? ?]|]. intros (reg' & [= <-] & Hall). exfalso.
    destruct (Hall n mi) as [w Hw]; [|simpl in Hfail; congruence].
    apply (range_elem_of range range_perm). rewrite Htodo.
    apply elem_of_app. right. left.
Qed.

(** X20.  The files of a run that completes bear different names
    exactly when no two models of the registry have names that give
    the same path once lower-cased and joined to the directory:
    models whose names differ by the case of their letters alone are
    written to the same file. *)
Theorem file_names_distinct_iff reg0 dir astData files :
  GeneratePool PoolPath ModelsPath range ToLower pathJoin createModelLinks
    inflateMixIns inflateEmbeddings generateMethodsDoc reg0 dir astData
  = Completed files ->
  exists reg,
    simulateBootstrap createModelLinks inflateMixIns inflateEmbeddings
      generateMethodsDoc reg0 = Some reg /\
    (NoDup (map fst files) <->
     forall n1 n2,
       is_Some (registryByName reg !! n1) -> is_Some (registryByName reg !! n2) ->
       pathJoin dir (ToLower n1 +:+ ".go") = pathJoin dir (ToLower n2 +:+ ".go") ->
       n1 = n2).
Proof.
  unfold GeneratePool.
  destruct (simulateBootstrap _ _ _ _ reg0) as [reg|] eqn:Hboot; [|done].
  intros Hrun. exists reg. split; [done|].
  pose proof (poolLoop_spec reg dir astData (range _ (registryByName reg)) []) as Hloop.
  rewrite Hrun in Hloop. destruct Hloop as (new & -> & Hall). simpl.
  set (file := fun n : string => pathJoin dir (ToLower n +:+ ".go")).
  assert (map fst new = file <$> (fst <$> range _ (registryByName reg))) as ->.
  { clear Hrun. induction Hall as [|[n mi] [f mData] l k Hgen _ IH]; [done|].
    cbn [map fmap list_fmap fst]. f_equal; [|exact IH].
    simpl in Hgen. unfold generateModelPoolFile in Hgen.
    destruct (addFieldsToModelData _ _ _ _ _) as [d1 deps1].
    destruct (addMethodsToModelData _ _ _ _ _ _ _) as [[d2 deps2]|]; [|done].
    by injection Hgen as <- _. }
  pose proof (range_NoDup range range_perm (registryByName reg)) as Hnd.
  rewrite map_fmap in Hnd.
  assert (forall n, is_Some (registryByName reg !! n) <->
                    n ∈ fst <$> range _ (registryByName reg)) as Hkeys.
  { intros n. rewrite list_elem_of_fmap. split.
    - intros [mi Hmi]. exists (n, mi). split; [done|].
      by apply (range_elem_of range range_perm).
    - intros ([n' mi] & -> & Hin). exists mi.
      by apply (range_elem_of range range_perm). }
  split.
  - intros Hfiles n1 n2 H1 H2 Heq.
    apply Hkeys, list_elem_of_lookup in H1 as [i Hi].
    apply Hkeys, list_elem_of_lookup in H2 as [j Hj].
    assert (i = j) as ->; [|congruence].
    apply (NoDup_lookup _ i j (file n1) Hfiles).
    + by rewrite list_lookup_fmap, Hi.
    + rewrite list_lookup_fmap, Hj. simpl. f_equal. symmetry. exact Heq.
  - intros Hinj. apply NoDup_fmap_2_strong; [|done].
    intros n1 n2 H1 H2. apply Hinj; by apply Hkeys.
Qed.

(** X21.  A run that panics after its bootstrap has stopped at the
    first model, in the order of the visit, whose file cannot be
    generated: the files written are those of the models visited
    before it, each under its path, and no file of a model visited
    after it is written, so that fewer files are written than the
    registry has models. *)
Theorem panic_stops_the_run reg0 dir astData files :
  GeneratePool PoolPath ModelsPath range ToLower pathJoin createModelLinks
    inflateMixIns inflateEmbeddings generateMethodsDoc reg0 dir astData
  = Panicked files ->
  (simulateBootstrap createModelLinks inflateMixIns inflateEmbeddings
     generateMethodsDoc reg0 = None /\ files = []) \/
  (exists reg visited e rest,
     simulateBootstrap createModelLinks inflateMixIns inflateEmbeddings
       generateMethodsDoc reg0 = Some reg /\
     range _ (registryByName reg) = visited ++ e :: rest /\
     genFile reg e.2 (pathJoin dir (ToLower e.1 +:+ ".go")) astData = None /\
     Forall2 (fun e w =>
                w.1 = pathJoin dir (ToLower e.1 +:+ ".go") /\
                genFile reg e.2 w.1 astData = Some w)
             visited files /\
     length files < size (registryByName reg)).
Proof.
  unfold GeneratePool.
  destruct (simulateBootstrap _ _ _ _ reg0) as [reg|] eqn:Hboot.
  2: { intros [= <-]. by left. }
  intros Hrun. right.
  pose proof (poolLoop_spec reg dir astData (range _ (registryByName reg)) []) as Hloop.
  rewrite Hrun in Hloop.
  destruct Hloop as (visited & e & rest & new & Htodo & -> & Hall & Hfail).
  exists reg, visited, e, rest. simpl.
  split; [done|]. split; [done|]. split; [done|]. split.
  - eapply Forall2_impl; [exact Hall|].
    intros [modelName mi] [file mData] Hgen. simpl in *.
    assert (file = pathJoin dir (ToLower modelName +:+ ".go")) as ->; [|done].
    unfold generateModelPoolFile in Hgen.
    destruct (addFieldsToModelData _ _ _ _ _) as [d1 deps1].
    destruct (addMethodsToModelData _ _ _ _ _ _ _) as [[d2 deps2]|]; [|done].
    by injection Hgen as <- _.
  - rewrite <- (Forall2_length _ _ _ Hall).
    rewrite <- (length_map_to_list (registryByName reg)), <- range_perm, Htodo.
    rewrite length_app. simpl. lia.
Qed.

End Pool.

(** *** The order of the maps and the generated data *)

Lemma Forall2_Permutation_l {A B : Type} (R : A -> B -> Prop) (l l' : list A) (k : list B) :
  l ≡ₚ l' -> Forall2 R l k -> exists k', k ≡ₚ k' /\ Forall2 R l' k'.
Proof.
  intros Hperm. revert k.
  induction Hperm as [|x l l' _ IH|x y l|l l' l'' _ IH1 _ IH2]; intros k Hall.
  - inversion Hall; subst. by exists [].
  - inversion Hall as [|? b ? k0 HR Hrest]; subst.
    destruct (IH _ Hrest) as (k' & Hk & Hall'). exists (b :: k').
    split; [by constructor|by constructor].
  - inversion Hall as [|? b ? k0 HR Hrest]; subst.
    inversion Hrest as [|? b' ? k1 HR' Hrest']; subst.
    exists (b' :: b :: k1). split; [apply perm_swap|by repeat constructor].
  - destruct (IH1 _ Hall) as (k' & Hk & Hall').
    destruct (IH2 _ Hall') as (k'' & Hk' & Hall'').
    exists k''. split; [by etrans|done].
Qed.

Lemma Forall2_functional {A B : Type} (R : A -> B -> Prop) (l : list A) (k k' : list B) :
  (forall a b b', R a b -> R a b' -> b = b') ->
  Forall2 R l k -> Forall2 R l k' -> k = k'.
Proof.
  intros Hfun Hall. revert k'.
  induction Hall as [|a b l k HR _ IH]; intros k' Hall'; inversion Hall'; subst; [done|].
  f_equal; [by eapply Hfun|by apply IH].
Qed.

Lemma Forall2_Permutation_functional {A B : Type} (R : A -> B -> Prop)
    (l l' : list A) (k k' : list B) :
  (forall a b b', R a b -> R a b' -> b = b') ->
  l ≡ₚ l' -> Forall2 R l k -> Forall2 R l' k' -> k ≡ₚ k'.
Proof.
  intros Hfun Hperm Hall Hall'.
  destruct (Forall2_Permutation_l R l l' k Hperm Hall) as (k0 & Hk & Hall0).
  by rewrite Hk, (Forall2_functional R l' k0 k' Hfun Hall0 Hall').
Qed.

Lemma firstOccurrences_Permutation (l l' : list string) :
  l ≡ₚ l' -> firstOccurrences l ≡ₚ firstOccurrences l'.
Proof.
  intros Hperm. apply NoDup_Permutation; [apply NoDup_firstOccurrences..|].
  intros p. by rewrite !elem_of_firstOccurrences, Hperm.
Qed.

Section Orders.

Variable PoolPath ModelsPath : string.
Variable range1 range2 : forall V : Type, gmap string V -> list (string * V).
Hypothesis range1_perm : forall (V : Type) (m : gmap string V),
  range1 V m ≡ₚ map_to_list m.
Hypothesis range2_perm : forall (V : Type) (m : gmap string V),
  range2 V m ≡ₚ map_to_list m.

Local Abbreviation emitsF := (emitsField ModelsPath).
Local Abbreviation emitsM := (emitsMethod ModelsPath).
Local Abbreviation emitsP := (emitsParams ModelsPath).

Lemma emitsField_functional mi (e : string * fieldInfo) (fd fd' : fieldData) :
  emitsF mi e fd -> emitsF mi e fd' -> fd = fd'.
Proof.
  clear range1_perm range2_perm.
  destruct fd, fd'. unfold emitsField. simpl. intros [-> H1] [-> H2].
  rewrite <- H2 in H1. by injection H1 as -> ->.
Qed.

Lemma emitsMethod_functional reg mi astData (e : string * methodInfo) (md md' : methodData) :
  emitsM mi e md /\ emitsP reg mi astData e md ->
  emitsM mi e md' /\ emitsP reg mi astData e md' -> md = md'.
Proof.
  clear range1_perm range2_perm.
  destruct md, md'. unfold emitsMethod, emitsParams. simpl.
  intros [(-> & -> & Hr) (pts & Hlen & _ & Hpoint & -> & ->)]
         [(-> & -> & Hr') (pts' & Hlen' & _ & Hpoint' & -> & ->)].
  rewrite <- Hr' in Hr. injection Hr as -> ->.
  assert (pts = pts') as ->; [|done].
  apply list_eq. intros i.
  destruct (tail (ins (methodType e.2)) !! i) as [t|] eqn:Ht.
  - by rewrite (Hpoint i t Ht), (Hpoint' i t Ht).
  - apply lookup_ge_None in Ht.
    rewrite !(proj2 (lookup_ge_None _ _)); [done|lia..].
Qed.

(** X22.  The order in which the maps of a model are visited decides
    neither whether its file is generated nor what the file holds,
    the order of the entries apart: under two orders, the name of the
    file and of the model are the same, and the imports, the field
    entries and the method entries are the same up to their order. *)
Theorem generation_order_independent reg mi fileName astData :
  (generateModelPoolFile PoolPath ModelsPath range1 reg mi fileName astData = None <->
   generateModelPoolFile PoolPath ModelsPath range2 reg mi fileName astData = None) /\
  (forall file1 mData1 file2 mData2,
     generateModelPoolFile PoolPath ModelsPath range1 reg mi fileName astData
       = Some (file1, mData1) ->
     generateModelPoolFile PoolPath ModelsPath range2 reg mi fileName astData
       = Some (file2, mData2) ->
     file1 = file2 /\ Name mData1 = Name mData2 /\
     Deps mData1 ≡ₚ Deps mData2 /\
     Fields mData1 ≡ₚ Fields mData2 /\
     Methods mData1 ≡ₚ Methods mData2).
Proof.
  assert (forall V (m : gmap string V), range1 V m ≡ₚ range2 V m) as Hperm
    by (intros V m; by rewrite range1_perm, range2_perm).
  split.
  - rewrite !eq_None_not_Some, !generateModelPoolFile_is_Some.
    assert (forall e, e ∈ range1 _ (methods mi) <-> e ∈ range2 _ (methods mi)) as Hin
      by (intros e; by rewrite Hperm).
    split; intros Hno Hall; apply Hno; intros e He; apply Hall; by apply Hin.
  - intros file1 mData1 file2 mData2 Hgen1 Hgen2.
    pose proof (generateModelPoolFile_methods _ _ _ _ _ _ _ _ _ Hgen1) as Hm1.
    pose proof (generateModelPoolFile_methods _ _ _ _ _ _ _ _ _ Hgen2) as Hm2.
    apply generateModelPoolFile_spec in Hgen1 as (-> & -> & -> & Hf1 & _).
    apply generateModelPoolFile_spec in Hgen2 as (-> & -> & -> & Hf2 & _).
    split; [done|]. split; [done|]. split; [|split].
    + constructor. apply firstOccurrences_Permutation.
      apply filter_Permutation. rewrite !map_fmap. apply fmap_Permutation.
      unfold typesSeen. rewrite !map_fmap. apply Permutation_app.
      * apply fmap_Permutation, Hperm.
      * apply Permutation_flat_map, Hperm.
    + eapply Forall2_Permutation_functional;
        [apply emitsField_functional|apply Hperm|exact Hf1|exact Hf2].
    + eapply Forall2_Permutation_functional;
        [apply emitsMethod_functional| |exact Hm1|exact Hm2].
      apply filter_Permutation, Hperm.
Qed.

End Orders.

End ModelsFacts.

(** ** The properties on the sample declarations *)

Module Scenarios.
Import GoStrings Models ModelsFacts Examples.

Local Abbreviation genFile := (generateModelPoolFile PoolPath ModelsPath rangeInOrder).
Local Abbreviation genPool :=
  (GeneratePool PoolPath ModelsPath rangeInOrder lowerASCII joinPlain
     composed composed composed composed).

(** The one method [ByName], of a result of type [RecordCollection],
    is emitted with the result [UserSet] in the file of [User] and
    [PostSet] in the file of [Post]: the set named is that of the
    model being generated, the model the method is called on. *)
Lemma return_type_follows_generated_model :
  methods user !! "ByName" = Some byName /\
  methods post !! "ByName" = Some byName /\
  outs (methodType byName) = [RecordCollectionType ModelsPath] /\
  genFile registry user "user.go" astData = Some ("user.go", userData) /\
  genFile registry post "post.go" astData = Some ("post.go", postData) /\
  map MReturns (filter (fun md => MName md = "ByName") (Methods userData))
    = ["UserSet"] /\
  map MReturns (filter (fun md => MName md = "ByName") (Methods postData))
    = ["PostSet"].
Proof. repeat split; vm_compute; reflexivity. Qed.

(** C1 on the file of [Comment]: the relation field [Author] is
    emitted as [UserSet], the field [Thread] and the result of
    [ByName] as [CommentSet]. *)
Lemma recordset_types_rewrapped_witness :
  genFile registry comment "comment.go" astData = Some ("comment.go", commentData) /\
  ((forall fieldName fi,
     fields comment !! fieldName = Some fi ->
     isRelationField fi = true \/
     structFieldType fi = RecordCollectionType ModelsPath ->
     exists fd,
       filter (fun fd => FName fd = fieldName) (Fields commentData) = [fd] /\
       FType fd = (if isRelationField fi then relatedModelName fi +:+ "Set"
                   else Replace1 (name comment +:+ "Set") "pool." "") /\
       ends_with "Set" (FType fd) /\
       FType fd <> "models.RecordCollection") /\
  (forall methodName methInfo outs',
     methods comment !! methodName = Some methInfo ->
     readBool specificMethods methodName = false ->
     outs (methodType methInfo) = RecordCollectionType ModelsPath :: outs' ->
     exists md,
       filter (fun md => MName md = methodName) (Methods commentData) = [md] /\
       MReturns md = Replace1 (name comment +:+ "Set") "pool." "" /\
       ends_with "Set" (MReturns md) /\
       MReturns md <> "models.RecordCollection") /\
  (contains "pool." (name comment) = false ->
     Replace1 (name comment +:+ "Set") "pool." "" = name comment +:+ "Set")).
Proof.
  split; [vm_compute; reflexivity|].
  apply (recordset_types_rewrapped PoolPath ModelsPath rangeInOrder
           (fun V m => Permutation_refl _) registry comment "comment.go" astData
           "comment.go" commentData).
  vm_compute; reflexivity.
Defined.

(** C2, counterexample.  Three names are recovered for [Greet], which
    has two parameters after the receiver; the file of [User] is
    generated all the same, the third name left aside. *)
Lemma surplus_names_accepted :
  methods user !! "Greet" = Some greet /\
  readBool specificMethods "Greet" = false /\
  Params (lookupASTData registry user astData "Greet") = ["who"; "when"; "where"] /\
  NumIn (methodType greet) - 1 = 2 /\
  genFile registry user "user.go" astData = Some ("user.go", userData).
Proof. repeat split; vm_compute; reflexivity. Qed.

(** C2, the amended property where one name is recovered for [Greet]. *)
Lemma short_name_list_panics_witness :
  methods user !! "Greet" = Some greet /\
  readBool specificMethods "Greet" = false /\
  length (Params (lookupASTData registry user astDataShort "Greet"))
    < NumIn (methodType greet) - 1 /\
  ((forall fileName, genFile registry user fileName astDataShort = None) /\
   (forall reg0 dir modelName,
      simulateBootstrap composed composed composed composed reg0 = Some registry ->
      registryByName registry !! modelName = Some user ->
      exists files,
        genPool reg0 dir astDataShort = Panicked files /\
        forall w, w ∈ files ->
          exists modelName' mi',
            registryByName registry !! modelName' = Some mi' /\
            genFile registry mi' (joinPlain dir (lowerASCII modelName' +:+ ".go"))
              astDataShort = Some w)).
Proof.
  split; [vm_compute; reflexivity|].
  split; [vm_compute; reflexivity|].
  split; [vm_compute; lia|].
  apply (short_name_list_panics PoolPath ModelsPath rangeInOrder
           (fun V m => Permutation_refl _) lowerASCII joinPlain
           composed composed composed composed registry user astDataShort
           "Greet" greet).
  - vm_compute; reflexivity.
  - vm_compute; reflexivity.
  - vm_compute; lia.
Defined.

(** C5, counterexample.  The type of the field [Profile] belongs to
    the generated package, no built-in type; its path is absent from
    the import list of [User]. *)
Lemma pool_path_never_listed :
  fields user !! "Profile" =
    Some {| isRelationField := true; relatedModelName := "Profile";
            structFieldType := tProfileSet |} /\
  depPath tProfileSet = PoolPath /\
  PoolPath <> "" /\
  genFile registry user "user.go" astData = Some ("user.go", userData) /\
  filter (fun p => p = PoolPath) (Deps userData) = [].
Proof. repeat split; try (vm_compute; reflexivity). discriminate. Qed.

(** The path of package [models] heads the import list without being
    marked as imported: the first type of that package adds it a
    second time. *)
Lemma models_path_listed_twice :
  genFile registry user "user.go" astData = Some ("user.go", userData) /\
  depPath (RecordCollectionType ModelsPath) = ModelsPath /\
  filter (fun p => p = ModelsPath) (Deps userData) = [ModelsPath; ModelsPath].
Proof. repeat split; vm_compute; reflexivity. Qed.

(** C5, the amended property on the file of [User]. *)
Lemma dependencies_listed_once_witness :
  genFile registry user "user.go" astData = Some ("user.go", userData) /\
  (head (Deps userData) = Some ModelsPath /\
   filter (fun p => p <> ModelsPath) (Deps userData) =
     firstOccurrences
       (filter (fun p => p <> "" /\ p <> PoolPath /\ p <> ModelsPath)
               (map depPath (typesSeen rangeInOrder user))) /\
   (forall p : string,
      p <> ModelsPath ->
      length (filter (fun q => q = p) (Deps userData)) =
      if decide (p <> "" /\ p <> PoolPath /\
                 p ∈ map depPath (typesSeen rangeInOrder user))
      then 1 else 0)).
Proof.
  split; [vm_compute; reflexivity|].
  apply (dependencies_listed_once PoolPath ModelsPath rangeInOrder registry user
           "user.go" astData "user.go" userData).
  vm_compute; reflexivity.
Defined.

(** C7 on the file of [User]. *)
Lemma specific_methods_skipped_witness :
  genFile registry user "user.go" astData = Some ("user.go", userData) /\
  (forall methodName : string,
     length (filter (fun md => MName md = methodName) (Methods userData)) =
     if decide (methodName ∈ ["Create"; "First"; "All"]) then 0
     else if decide (is_Some (methods user !! methodName)) then 1 else 0).
Proof.
  split; [vm_compute; reflexivity|].
  apply (specific_methods_skipped PoolPath ModelsPath rangeInOrder
           (fun V m => Permutation_refl _) registry user "user.go" astData
           "user.go" userData).
  vm_compute; reflexivity.
Defined.

(** C9 on the registry of [User] and [Post]. *)
Lemma one_file_per_model_witness :
  genPool registry "pool" astData
    = Completed [("pool/user.go", userData); ("pool/post.go", postData)] /\
  (exists reg visited,
     simulateBootstrap composed composed composed composed registry = Some reg /\
     visited ≡ₚ map_to_list (registryByName reg) /\
     length [("pool/user.go", userData); ("pool/post.go", postData)]
       = size (registryByName reg) /\
     Forall2 (fun e w =>
                w.1 = joinPlain "pool" (lowerASCII e.1 +:+ ".go") /\
                genFile reg e.2 w.1 astData = Some w)
             visited [("pool/user.go", userData); ("pool/post.go", postData)]).
Proof.
  split; [vm_compute; reflexivity|].
  apply (one_file_per_model PoolPath ModelsPath rangeInOrder
           (fun V m => Permutation_refl _) lowerASCII joinPlain
           composed composed composed composed registry "pool" astData).
  vm_compute; reflexivity.
Defined.

(** *** More of the generator on the sample declarations *)

(** A type of a package whose name ends with [pool] loses the end of
    its qualifier. *)
Lemma qualifier_cut_short :
  sanitizedFieldType ModelsPath user (TBase "example.com/threadpool" "threadpool.Worker")
  = ("threadWorker", false).
Proof. vm_compute; reflexivity. Qed.

(** X9 on the import list of the path [time] alone, where a pointer
    to a type of package [fmt] is resolved. *)
Lemma addDependency_consistent_witness :
  consistent ["time"] (<["time" := true]> ∅) /\
  (consistent
     (Deps (addDependency
              {| Name := "User"; Deps := ["time"]; Fields := []; Methods := [] |}
              (TPtr (TBase "fmt" "fmt.Stringer")) (<["time" := true]> ∅)).1)
     (addDependency
        {| Name := "User"; Deps := ["time"]; Fields := []; Methods := [] |}
        (TPtr (TBase "fmt" "fmt.Stringer")) (<["time" := true]> ∅)).2 /\
   (depPath (TPtr (TBase "fmt" "fmt.Stringer")) <> "" ->
    length (filter (fun p => p = depPath (TPtr (TBase "fmt" "fmt.Stringer")))
              (Deps (addDependency
                       {| Name := "User"; Deps := ["time"]; Fields := [];
                          Methods := [] |}
                       (TPtr (TBase "fmt" "fmt.Stringer"))
                       (<["time" := true]> ∅)).1)) = 1)).
Proof.
  assert (consistent ["time"] (<["time" := true]> ∅)) as Hc.
  { split; [apply NoDup_singleton|]. intros p _.
    rewrite list_elem_of_singleton, readBool_insert. unfold readBool.
    rewrite lookup_empty, orb_false_r, bool_decide_eq_true. split; congruence. }
  split; [exact Hc|].
  exact (addDependency_consistent
           {| Name := "User"; Deps := ["time"]; Fields := []; Methods := [] |}
           (TPtr (TBase "fmt" "fmt.Stringer")) (<["time" := true]> ∅) Hc).
Defined.

(** X13 on the file of [User], where the result of [ByName] belongs
    to package [models]. *)
Lemma models_path_listed_again_witness :
  genFile registry user "user.go" astData = Some ("user.go", userData) /\
  length (filter (fun p => p = ModelsPath) (Deps userData)) =
  if decide (ModelsPath <> "" /\ ModelsPath <> PoolPath /\
             ModelsPath ∈ map depPath (typesSeen rangeInOrder user))
  then 2 else 1.
Proof.
  split; [vm_compute; reflexivity|].
  apply (models_path_listed_again PoolPath ModelsPath rangeInOrder registry user
           "user.go" astData "user.go" userData).
  vm_compute; reflexivity.
Defined.

(** X14 on the file of [User]. *)
Lemma field_entries_witness :
  genFile registry user "user.go" astData = Some ("user.go", userData) /\
  (length (Fields userData) = size (fields user) /\
   NoDup (map FName (Fields userData)) /\
   (forall fd, fd ∈ Fields userData ->
      exists fi,
        fields user !! FName fd = Some fi /\
        FTypeIsRS fd = isRelationField fi /\
        FType fd = if isRelationField fi then relatedModelName fi +:+ "Set"
                   else (sanitizedFieldType ModelsPath user (structFieldType fi)).1)).
Proof.
  split; [vm_compute; reflexivity|].
  apply (field_entries PoolPath ModelsPath rangeInOrder
           (fun V m => Permutation_refl _) registry user "user.go" astData
           "user.go" userData).
  vm_compute; reflexivity.
Defined.

(** X15 on the variadic method [Link] of [tag]. *)
Lemma wrapper_parameters_witness :
  genFile registry tag "tag.go" astDataTag = Some ("tag.go", tagData) /\
  methods tag !! "Link" = Some link /\
  readBool specificMethods "Link" = false /\
  (exists md (pts : list (string * bool)),
     filter (fun md => MName md = "Link") (Methods tagData) = [md] /\
     length pts = NumIn (methodType link) - 1 /\
     (forall i t, ins (methodType link) !! S i = Some t ->
        pts !! i =
        paramTypeText ModelsPath tag
          (IsVariadic (methodType link) && bool_decide (i + 2 = NumIn (methodType link)))
          t) /\
     MParams md =
       Join (zip_with callArg (Params (lookupASTData registry tag astDataTag "Link")) pts)
            ", " /\
     MParamsWithType md =
       Join (zip_with declArg (Params (lookupASTData registry tag astDataTag "Link")) pts)
            ", ").
Proof.
  split; [vm_compute; reflexivity|].
  split; [vm_compute; reflexivity|].
  split; [vm_compute; reflexivity|].
  apply (wrapper_parameters PoolPath ModelsPath rangeInOrder
           (fun V m => Permutation_refl _) registry tag "tag.go" astDataTag
           "tag.go" tagData "Link" link).
  - vm_compute; reflexivity.
  - vm_compute; reflexivity.
  - vm_compute; reflexivity.
Defined.

(** X16 on the method [ByName] of [user]. *)
Lemma wrapper_result_witness :
  genFile registry user "user.go" astData = Some ("user.go", userData) /\
  methods user !! "ByName" = Some byName /\
  readBool specificMethods "ByName" = false /\
  (exists md,
     filter (fun md => MName md = "ByName") (Methods userData) = [md] /\
     MDoc md = doc byName /\
     (outs (methodType byName) = [] -> MReturns md = "" /\ MReturnsIsRS md = false) /\
     (forall out0 outs', outs (methodType byName) = out0 :: outs' ->
        (MReturns md, MReturnsIsRS md) = sanitizedFieldType ModelsPath user out0)).
Proof.
  split; [vm_compute; reflexivity|].
  split; [vm_compute; reflexivity|].
  split; [vm_compute; reflexivity|].
  apply (wrapper_result PoolPath ModelsPath rangeInOrder
           (fun V m => Permutation_refl _) registry user "user.go" astData
           "user.go" userData "ByName" byName).
  - vm_compute; reflexivity.
  - vm_compute; reflexivity.
  - vm_compute; reflexivity.
Defined.

(** X17 on the methods of [User], from the data and the marks
    [generateModelPoolFile] starts with. *)
Lemma method_data_built_iff_witness :
  is_Some (addMethodsToModelData ModelsPath rangeInOrder registry
             {| Name := "User"; Deps := [ModelsPath]; Fields := []; Methods := [] |}
             user astData (<[PoolPath := true]> ∅)) <->
  forall methodName methInfo,
    methods user !! methodName = Some methInfo ->
    readBool specificMethods methodName = false ->
    0 < NumIn (methodType methInfo) /\
    NumIn (methodType methInfo) - 1
      <= length (Params (lookupASTData registry user astData methodName)) /\
    (IsVariadic (methodType methInfo) = true -> 2 <= NumIn (methodType methInfo) ->
       exists t e, last (ins (methodType methInfo)) = Some t /\ Elem t = Some e).
Proof.
  exact (method_data_built_iff ModelsPath rangeInOrder
           (fun V m => Permutation_refl _) registry user astData
           {| Name := "User"; Deps := [ModelsPath]; Fields := []; Methods := [] |}
           (<[PoolPath := true]> ∅)).
Defined.

(** The methods of [user]. *)
Lemma methods_of_user (methodName : string) (methInfo : methodInfo) :
  methods user !! methodName = Some methInfo ->
  (methodName, methInfo) ∈ [("Greet", greet); ("Create", create); ("ByName", byName)].
Proof.
  intros H. apply elem_of_map_to_list in H.
  by replace (map_to_list (methods user))
    with [("Greet", greet); ("Create", create); ("ByName", byName)] in H
    by (vm_compute; reflexivity).
Qed.

(** X12 on the file of [User]: the third name recovered for [Greet]
    and the doc strings recovered change nothing. *)
Lemma surplus_names_ignored_witness :
  (forall methodName methInfo,
     methods user !! methodName = Some methInfo ->
     take (NumIn (methodType methInfo) - 1)
          (Params (lookupASTData registry user astData methodName)) =
     take (NumIn (methodType methInfo) - 1)
          (Params (lookupASTData registry user astDataExact methodName))) /\
  genFile registry user "user.go" astData = genFile registry user "user.go" astDataExact.
Proof.
  assert (forall methodName methInfo,
            methods user !! methodName = Some methInfo ->
            take (NumIn (methodType methInfo) - 1)
                 (Params (lookupASTData registry user astData methodName)) =
            take (NumIn (methodType methInfo) - 1)
                 (Params (lookupASTData registry user astDataExact methodName))) as Hagree.
  { intros methodName methInfo Hin. apply methods_of_user in Hin.
    repeat (apply elem_of_cons in Hin as [[= -> ->]|Hin]; [vm_compute; reflexivity|]).
    by apply elem_of_nil in Hin. }
  split; [exact Hagree|].
  exact (surplus_names_ignored PoolPath ModelsPath rangeInOrder
           (fun V m => Permutation_refl _) registry user "user.go" astData astDataExact
           Hagree).
Defined.

(** X19 on the registry of [User] and [Post]. *)
Lemma GeneratePool_completes_iff_witness :
  (simulateBootstrap composed composed composed composed registry = None ->
   genPool registry "pool" astData = Panicked []) /\
  ((exists files, genPool registry "pool" astData = Completed files) <->
   exists reg,
     simulateBootstrap composed composed composed composed registry = Some reg /\
     forall modelName mi,
       registryByName reg !! modelName = Some mi ->
       is_Some (genFile reg mi (joinPlain "pool" (lowerASCII modelName +:+ ".go")) astData)).
Proof.
  exact (GeneratePool_completes_iff PoolPath ModelsPath rangeInOrder
           (fun V m => Permutation_refl _) lowerASCII joinPlain
           composed composed composed composed registry "pool" astData).
Defined.

(** X20 on the registry of [User] and [Post]. *)
Lemma file_names_distinct_iff_witness :
  genPool registry "pool" astData
    = Completed [("pool/user.go", userData); ("pool/post.go", postData)] /\
  (exists reg,
     simulateBootstrap composed composed composed composed registry = Some reg /\
     (NoDup (map fst [("pool/user.go", userData); ("pool/post.go", postData)]) <->
      forall n1 n2,
        is_Some (registryByName reg !! n1) -> is_Some (registryByName reg !! n2) ->
        joinPlain "pool" (lowerASCII n1 +:+ ".go")
          = joinPlain "pool" (lowerASCII n2 +:+ ".go") ->
        n1 = n2)).
Proof.
  split; [vm_compute; reflexivity|].
  apply (file_names_distinct_iff PoolPath ModelsPath rangeInOrder
           (fun V m => Permutation_refl _) lowerASCII joinPlain
           composed composed composed composed registry "pool" astData).
  vm_compute; reflexivity.
Defined.

(** X22 on the file of [User], its maps visited in one order and in
    the reverse one. *)
Lemma generation_order_independent_witness :
  (genFile registry user "user.go" astData = None <->
   generateModelPoolFile PoolPath ModelsPath rangeReversed registry user "user.go" astData
     = None) /\
  (forall file1 mData1 file2 mData2,
     genFile registry user "user.go" astData = Some (file1, mData1) ->
     generateModelPoolFile PoolPath ModelsPath rangeReversed registry user "user.go"
       astData = Some (file2, mData2) ->
     file1 = file2 /\ Name mData1 = Name mData2 /\
     Deps mData1 ≡ₚ Deps mData2 /\
     Fields mData1 ≡ₚ Fields mData2 /\
     Methods mData1 ≡ₚ Methods mData2).
Proof.
  exact (generation_order_independent PoolPath ModelsPath rangeInOrder rangeReversed
           (fun V m => Permutation_refl _)
           (fun V m => Permutation_sym (Permutation_rev (map_to_list m)))
           registry user "user.go" astData).
Defined.

(** X18 on the field [Stamps] of [journal], a slice of [time.Time]. *)
Lemma slice_elements_not_imported_witness :
  genFile registry journal "journal.go" astData = Some ("journal.go", journalData) /\
  fields journal !! "Stamps" =
    Some {| isRelationField := false; relatedModelName := "";
            structFieldType := TSlice tTime |} /\
  "time" <> ModelsPath /\
  ("time" ∉ map depPath (typesSeen rangeInOrder journal)) /\
  (exists fd,
     filter (fun fd => FName fd = "Stamps") (Fields journalData) = [fd] /\
     FType fd = "[]" +:+ Replace1 "time.Time" "pool." "" /\
     "time" ∉ Deps journalData).
Proof.
  assert ("time" <> ModelsPath) as Hp by discriminate.
  assert ("time" ∉ map depPath (typesSeen rangeInOrder journal)) as Hnot.
  { replace (map depPath (typesSeen rangeInOrder journal)) with [""]
      by (vm_compute; reflexivity).
    rewrite list_elem_of_singleton. discriminate. }
  split; [vm_compute; reflexivity|].
  split; [vm_compute; reflexivity|].
  split; [exact Hp|]. split; [exact Hnot|].
  apply (slice_elements_not_imported PoolPath ModelsPath rangeInOrder
           (fun V m => Permutation_refl _) registry journal "journal.go" astData
           "journal.go" journalData "Stamps"
           {| isRelationField := false; relatedModelName := "";
              structFieldType := TSlice tTime |} "time" "time.Time").
  - vm_compute; reflexivity.
  - vm_compute; reflexivity.
  - reflexivity.
  - reflexivity.
  - exact Hp.
  - exact Hnot.
Defined.

(** X21 on the registry of [User] and [Post], visited in the reverse
    order, where one name is recovered for [Greet]: the file of
    [Post] is written, and the run stops at [User]. *)
Lemma panic_stops_the_run_witness :
  GeneratePool PoolPath ModelsPath rangeReversed lowerASCII joinPlain
    composed composed composed composed registry "pool" astDataShort
  = Panicked [("pool/post.go", postData)] /\
  ((simulateBootstrap composed composed composed composed registry = None /\
    [("pool/post.go", postData)] = []) \/
   (exists reg visited e rest,
      simulateBootstrap composed composed composed composed registry = Some reg /\
      rangeReversed _ (registryByName reg) = visited ++ e :: rest /\
      generateModelPoolFile PoolPath ModelsPath rangeReversed reg e.2
        (joinPlain "pool" (lowerASCII e.1 +:+ ".go")) astDataShort = None /\
      Forall2 (fun e w =>
                 w.1 = joinPlain "pool" (lowerASCII e.1 +:+ ".go") /\
                 generateModelPoolFile PoolPath ModelsPath rangeReversed reg e.2 w.1
                   astDataShort = Some w)
              visited [("pool/post.go", postData)] /\
      length [("pool/post.go", postData)] < size (registryByName reg))).
Proof.
  split; [vm_compute; reflexivity|].
  apply (panic_stops_the_run PoolPath ModelsPath rangeReversed
           (fun V m => Permutation_sym (Permutation_rev (map_to_list m)))
           lowerASCII joinPlain composed composed composed composed
           registry "pool" astDataShort).
  vm_compute; reflexivity.
Defined.

End Scenarios.
